(** * Banking transaction analysis: the aggregation pipeline and the generator

    A shallow embedding of [banking_analysis.py] (the three aggregate views
    and the display / save driver), of [transaction_generator.py] (the
    unique-identifier loop, the generation loop, the input validation, the
    file helpers and the driver) and of [generate_sample_data.py] (the
    sample file the analysis reads).

    Conventions of the embedding.
    - A Spark DataFrame is the list of its rows.  A nullable column is an
      [option].  Spark does not fix the order in which [groupBy] emits its
      groups; the embedding emits them in order of first occurrence.
    - [count] columns are [nat]; the double columns ([transaction_amount],
      [avg_transaction], [failure_rate]) are exact rationals [Q], so
      rounding of binary floating point is not represented.
    - Python exceptions are values of [exn]; console and file effects are
      appended to an event log. *)

From Stdlib Require Import List String Ascii Bool Arith ZArith QArith Lia.
From Stdlib Require Import Permutation Sorted.
From Stdlib Require DecimalString DecimalNat.
Import ListNotations.

Open Scope nat_scope.

(** ** Generic DataFrame operations *)

Module DataFrame.

Section Ops.
Context {K : Type} (K_eq_dec : forall a b : K, {a = b} + {a <> b}).

Definition keqb (a b : K) : bool := if K_eq_dec a b then true else false.

(** The distinct keys of a column, in order of first occurrence. *)
Fixpoint distinct (ks : list K) : list K :=
  match ks with
  | [] => []
  | k :: t => k :: remove K_eq_dec k (distinct t)
  end.

(** [df.groupBy(key)]: one group per distinct key value, holding the rows
    that carry it. *)
Definition groupBy {R : Type} (key : R -> K) (df : list R) : list (K * list R) :=
  map (fun k => (k, filter (fun r => keqb (key r) k) df)) (distinct (map key df)).
End Ops.

(** [count("*")] over a group. *)
Definition count_star {R : Type} (g : list R) : nat := List.length g.

(** The non-null values of a nullable column. *)
Definition non_null {A : Type} (col : list (option A)) : list A :=
  flat_map (fun o => match o with Some a => [a] | None => [] end) col.

Definition Qsum (xs : list Q) : Q := fold_right Qplus 0%Q xs.

(** [avg(column)]: the mean of the non-null values, null when there is
    none. *)
Definition avg (col : list (option Q)) : option Q :=
  match non_null col with
  | [] => None
  | vals => Some (Qsum vals / inject_Z (Z.of_nat (List.length vals)))%Q
  end.

Definition isNotNull {A : Type} (c : option A) : bool :=
  match c with Some _ => true | None => false end.

(** [col == literal] under SQL three-valued logic, as [filter] reads it:
    a null cell does not satisfy the comparison. *)
Definition col_eq (c : option string) (lit : string) : bool :=
  match c with Some s => String.eqb s lit | None => false end.

(** Equi-join condition on a nullable key: null matches nothing. *)
Definition key_match (a b : option string) : bool :=
  match a, b with
  | Some x, Some y => String.eqb x y
  | _, _ => false
  end.

Section Order.
Context {R : Type} (ltb : R -> R -> bool).

(** Insertion of [x] into a list in descending order; [x] goes in front
    of the first row that is not strictly greater. *)
Fixpoint insert_desc (x : R) (l : list R) : list R :=
  match l with
  | [] => [x]
  | y :: t => if ltb x y then y :: insert_desc x t else x :: y :: t
  end.

(** [orderBy(col.desc())], as a stable sort. *)
Definition orderBy_desc (l : list R) : list R := fold_right insert_desc [] l.
End Order.

Definition limit {R : Type} (n : nat) (l : list R) : list R := firstn n l.

End DataFrame.

(** ** banking_analysis.py *)

Module BankingAnalysis.
Import DataFrame.

(** A row of [transactions.csv] as loaded by [spark.read.csv]; an empty
    cell is null. *)
Record Row := mkRow {
  user_id : option string;
  merchant_id : option string;
  transaction_amount : option Q;
  status : option string;
  transaction_date : option string
}.

Definition Table := list Row.

Definition key_eq_dec : forall a b : option string, {a = b} + {a <> b}.
Proof. decide equality. apply string_dec. Defined.

Record AvgRow := mkAvg {
  au_user_id : option string;
  avg_transaction : option Q
}.

Record CountRow := mkCount {
  cn_merchant_id : option string;
  cn_count : nat
}.

Record JoinedRow := mkJoined {
  jn_merchant_id : option string;
  jn_total_txns : nat;
  jn_failed_txns : option nat
}.

Record FailureRow := mkFailure {
  fr_merchant_id : option string;
  total_txns : nat;
  failed_txns : nat;
  fr_failure_rate : Q
}.

(** Step 2: average transaction per user. *)
Definition avg_txn (df : Table) : list AvgRow :=
  map (fun g => mkAvg (fst g) (avg (map transaction_amount (snd g))))
      (groupBy key_eq_dec user_id
         (filter (fun r => isNotNull (transaction_amount r) && isNotNull (user_id r)) df)).

(** Step 3: failure rate per merchant. *)
Definition total (df : Table) : list CountRow :=
  map (fun g => mkCount (fst g) (count_star (snd g)))
      (groupBy key_eq_dec merchant_id
         (filter (fun r => isNotNull (merchant_id r)) df)).

Definition failed (df : Table) : list CountRow :=
  map (fun g => mkCount (fst g) (count_star (snd g)))
      (groupBy key_eq_dec merchant_id
         (filter (fun r => col_eq (status r) "FAILED" && isNotNull (merchant_id r)) df)).

(** [left.join(right, "merchant_id", "left")]: every left row is kept, once
    per matching right row, and once with a null right side when nothing
    matches. *)
Definition join_left (l r : list CountRow) : list JoinedRow :=
  flat_map (fun t =>
    match filter (fun f => key_match (cn_merchant_id t) (cn_merchant_id f)) r with
    | [] => [mkJoined (cn_merchant_id t) (cn_count t) None]
    | ms => map (fun f => mkJoined (cn_merchant_id t) (cn_count t) (Some (cn_count f))) ms
    end) l.

(** [.fillna(0, subset=["failed_txns"])] on one cell. *)
Definition fillna (o : option nat) : nat :=
  match o with Some n => n | None => 0 end.

(** [when(total_txns > 0, failed_txns / total_txns).otherwise(0.0)]. *)
Definition failure_rate_col (total_txns failed_txns : nat) : Q :=
  if 0 <? total_txns
  then (inject_Z (Z.of_nat failed_txns) / inject_Z (Z.of_nat total_txns))%Q
  else 0%Q.

Definition failure_rate (df : Table) : list FailureRow :=
  map (fun j =>
         let f := fillna (jn_failed_txns j) in
         mkFailure (jn_merchant_id j) (jn_total_txns j) f
                   (failure_rate_col (jn_total_txns j) f))
      (join_left (total df) (failed df)).

(** Step 4: top 5 merchants by number of transactions. *)
Definition count_ltb (a b : CountRow) : bool := cn_count a <? cn_count b.

Definition top_merchants (df : Table) : list CountRow :=
  limit 5
    (orderBy_desc count_ltb
       (map (fun g => mkCount (fst g) (count_star (snd g)))
            (groupBy key_eq_dec merchant_id
               (filter (fun r => isNotNull (merchant_id r)) df)))).

(** The 4-row scenario of the specification. *)
Definition scenario : Table :=
  [ mkRow (Some "U1") (Some "M1") (Some 100%Q) (Some "SUCCESS") None;
    mkRow (Some "U1") (Some "M1") (Some 50%Q) (Some "FAILED") None;
    mkRow (Some "U2") (Some "M1") (Some 200%Q) (Some "SUCCESS") None;
    mkRow (Some "U2") (Some "M2") (Some 300%Q) (Some "SUCCESS") None ]%string.


(** *** The driver [main] *)

Inductive exn :=
| FileNotFoundError (msg : string)
| ValueError (msg : string)
| OSError (msg : string)
| TypeError (msg : string).

Inductive View :=
| VAvg (v : list AvgRow)
| VFailure (v : list FailureRow)
| VTop (v : list CountRow).

(** What [main] does to the outside: console lines, [DataFrame.show],
    directory creation, calls of [to_csv], stopping the Spark session. *)
Inductive event :=
| Print (msg : string)
| PrintCount (label : string) (n : nat)
| PrintRate (label : string) (q : Q)
| PrintError (label : string) (e : exn)
| Show (v : View)
| Makedirs (dir : string)
| ToCsv (file : string) (v : View)
| SparkStop.

(** The environment [main] runs in. *)
Record World := mkWorld {
  input_exists : bool;            (* os.path.exists(input_path) *)
  read_csv : Table;               (* spark.read.csv(input_path, ...) *)
  makedirs_fails : bool;          (* os.makedirs raises *)
  to_csv_fails : string -> bool   (* toPandas / to_csv raises for this file *)
}.

(** Computations that log events and either return or raise. *)
Definition M (A : Type) : Type := (list event * (A + exn))%type.

Definition ret {A} (a : A) : M A := ([], inl a).
Definition raise {A} (e : exn) : M A := ([], inr e).
Definition emit (ev : event) : M unit := ([ev], inl tt).
Definition bind {A B} (m : M A) (f : A -> M B) : M B :=
  match m with
  | (l, inl a) => let (l', r) := f a in (l ++ l', r)
  | (l, inr e) => (l, inr e)
  end.
Definition try_except {A} (m : M A) (handler : exn -> M A) : M A :=
  match m with
  | (l, inr e) => let (l', r) := handler e in (l ++ l', r)
  | ok => ok
  end.
Definition finally {A} (m : M A) (cleanup : list event) : M A :=
  (fst m ++ cleanup, snd m).

Notation "m ;; k" := (bind m (fun _ => k)) (at level 61, right associativity).

Definition print (msg : string) : M unit := emit (Print msg).
Definition show (v : View) : M unit := emit (Show v).

Definition makedirs (w : World) (dir : string) : M unit :=
  emit (Makedirs dir) ;;
  if makedirs_fails w then raise (OSError dir) else ret tt.

Definition to_csv (w : World) (file : string) (v : View) : M unit :=
  emit (ToCsv file v) ;;
  if to_csv_fails w file then raise (OSError file) else ret tt.

(** Descending order on a nullable double column: nulls come last. *)
Definition oQ_ltb (a b : option Q) : bool :=
  match a, b with
  | None, Some _ => true
  | Some x, Some y => negb (Qle_bool y x)
  | _, None => false
  end.

Definition Q_ltb (x y : Q) : bool := negb (Qle_bool y x).

(** [df.agg({'failure_rate': 'max'}).collect()[0][0]]: null on an empty
    table. *)
Definition agg_max (col : list Q) : option Q :=
  match col with
  | [] => None
  | x :: t => Some (fold_left (fun m y => if Q_ltb m y then y else m) t x)
  end.

Definition agg_avg (col : list Q) : option Q := avg (map Some col).

(** Formatting a collected cell with [:.2%]; [None] has no such format. *)
Definition print_rate (label : string) (cell : option Q) : M unit :=
  match cell with
  | Some q => emit (PrintRate label q)
  | None => raise (TypeError "unsupported format string passed to NoneType.__format__")
  end.

Definition results_dir : string := "analysis_results".
Definition avg_file : string := "avg_transaction_per_user.csv".
Definition failure_file : string := "failure_rate_per_merchant.csv".
Definition top_file : string := "top_5_merchants.csv".

(** The body of the inner [try]: directory, three files, summary. *)
Definition save_block (w : World) (df : Table) : M unit :=
  makedirs w results_dir ;;
  print "Converting and saving average transactions..." ;;
  to_csv w avg_file (VAvg (avg_txn df)) ;;
  print "Converting and saving failure rates..." ;;
  to_csv w failure_file (VFailure (failure_rate df)) ;;
  print "Converting and saving top merchants..." ;;
  to_csv w top_file (VTop (top_merchants df)) ;;
  print "SUCCESS! All results saved" ;;
  print "Generated files:" ;;
  print avg_file ;;
  print failure_file ;;
  print top_file ;;
  print "SUMMARY STATISTICS:" ;;
  emit (PrintCount "Total users analyzed: " (List.length (avg_txn df))) ;;
  emit (PrintCount "Total merchants analyzed: " (List.length (failure_rate df))) ;;
  print_rate "Highest failure rate: " (agg_max (map fr_failure_rate (failure_rate df))) ;;
  print_rate "Average failure rate: " (agg_avg (map fr_failure_rate (failure_rate df))).

(** The three [show] calls, in the order of the report. *)
Definition display (df : Table) : M unit :=
  print "BANKING TRANSACTIONS ANALYSIS RESULTS" ;;
  print "TOP 5 MERCHANTS BY TRANSACTION COUNT:" ;;
  show (VTop (top_merchants df)) ;;
  print "TOP 10 USERS BY AVERAGE TRANSACTION AMOUNT:" ;;
  show (VAvg (limit 10 (orderBy_desc
           (fun a b => oQ_ltb (avg_transaction a) (avg_transaction b)) (avg_txn df)))) ;;
  print "TOP 10 MERCHANTS BY FAILURE RATE:" ;;
  show (VFailure (limit 10 (orderBy_desc
           (fun a b => Q_ltb (fr_failure_rate a) (fr_failure_rate b)) (failure_rate df)))).

Definition no_data : exn := ValueError "No data found in the input file".

(** The inner [try ... except Exception as save_error]. *)
Definition save_results (w : World) (df : Table) : M unit :=
  try_except (save_block w df)
    (fun save_error =>
       emit (PrintError "Could not save CSV files: " save_error) ;;
       print "But the analysis completed successfully - results are displayed above.").

Definition main (w : World) : M unit :=
  finally
    (try_except
       (print "Looking for input file" ;;
        (if input_exists w then ret tt
         else raise (FileNotFoundError "transactions.csv not found")) ;;
        print "Reading transaction data..." ;;
        let df := read_csv w in
        let record_count := List.length df in
        (if record_count =? 0 then raise no_data else ret tt) ;;
        emit (PrintCount "Total records loaded: " record_count) ;;
        print "Calculating average transaction per user..." ;;
        print "Calculating failure rate per merchant..." ;;
        print "Finding top 5 merchants by transaction count..." ;;
        display df ;;
        print "Saving results to CSV files..." ;;
        save_results w df)
       (fun e => emit (PrintError "Error occurred during analysis: " e) ;; raise e))
    [SparkStop].

(** *** Reading the event log *)

(** The views shown on the console, in order. *)
Definition shown (log : list event) : list View :=
  flat_map (fun ev => match ev with Show v => [v] | _ => [] end) log.

(** The files [to_csv] was called for, with the view handed over. *)
Definition attempted (log : list event) : list (string * View) :=
  flat_map (fun ev => match ev with ToCsv f v => [(f, v)] | _ => [] end) log.

(** The files that were written: the attempts that did not fail. *)
Definition written (w : World) (log : list event) : list (string * View) :=
  filter (fun fv => negb (to_csv_fails w (fst fv))) (attempted log).

Definition touches_disk (ev : event) : bool :=
  match ev with Makedirs _ | ToCsv _ _ => true | _ => false end.

(** The three result files with the views computed from the table. *)
Definition result_files (df : Table) : list (string * View) :=
  [ (avg_file, VAvg (avg_txn df));
    (failure_file, VFailure (failure_rate df));
    (top_file, VTop (top_merchants df)) ].

(** What [main] has put on the console when it reaches the save block. *)
Definition report (df : Table) : list event :=
  [ Print "Looking for input file";
    Print "Reading transaction data...";
    PrintCount "Total records loaded: " (List.length df);
    Print "Calculating average transaction per user...";
    Print "Calculating failure rate per merchant...";
    Print "Finding top 5 merchants by transaction count..." ]
  ++ fst (display df)
  ++ [ Print "Saving results to CSV files..." ].

Definition success_note : event :=
  Print "But the analysis completed successfully - results are displayed above.".

End BankingAnalysis.



(** ** transaction_generator.py *)

Module TransactionGenerator.

Definition TRANSACTION_TYPES : list string :=
  ["POS"; "ATM"; "Online"; "UPI"; "NEFT"; "RTGS"]%string.
Definition STATUSES : list string := ["SUCCESS"; "FAILED"; "DECLINED"]%string.
Definition CITIES : list string :=
  ["Mumbai"; "Delhi"; "Kolkata"; "Bangalore"; "Hyderabad"; "Chennai"]%string.

(** A UUID, as the 128-bit number it encodes; [str] is injective on UUIDs,
    so two transaction identifiers are equal exactly when the numbers
    are. *)
Definition UUID := N.

Record Transaction := mkTransaction {
  transaction_id : UUID;
  customer_id : string;
  customer_name : string;
  timestamp : string;
  transaction_type : string;
  amount : Q;
  location : string;
  merchant_name : string;
  account_number : Z;
  status : string;
  currency : string;
  description : string
}.

(** What one call of [generate_transaction] takes from [random] and
    [Faker], apart from the UUIDs. *)
Record Draws := mkDraws {
  d_merchant_kind : bool;      (* random.choice(['merchant', 'person']) == 'merchant' *)
  d_company : string;          (* fake.company() *)
  d_person : string;           (* fake.name(), for the merchant *)
  d_customer_id : string;      (* random.choice(CUSTOMER_IDS) *)
  d_customer_name : string;    (* fake.name() *)
  d_timestamp : string;        (* (now - timedelta(minutes=...)).isoformat() *)
  d_type : nat;                (* index chosen in TRANSACTION_TYPES *)
  d_amount : Q;                (* round(random.uniform(50.0, 100000.0), 2) *)
  d_city : nat;                (* index chosen in CITIES *)
  d_account : Z;               (* random.randint(100000000, 999999999) *)
  d_status : nat;              (* index chosen in STATUSES by the weights *)
  d_sentence : string          (* fake.sentence(nb_words=4) *)
}.

(** The random sources: the successive results of [uuid.uuid4()] and the
    successive draws of [generate_transaction]. *)
Record Random := mkRandom {
  uuid4 : nat -> UUID;
  draws : nat -> Draws
}.

(** The generator object together with its position in the random
    sources. *)
Record Generator := mkGenerator {
  used_transaction_ids : list UUID;
  uuid_calls : nat;
  made : nat
}.

(** [TransactionGenerator()] *)
Definition init : Generator := mkGenerator [] 0 0.

Inductive result (A : Type) :=
| Ok (a : A)
| OutOfFuel.
Arguments Ok {A} a.
Arguments OutOfFuel {A}.

Definition mem (x : UUID) (s : list UUID) : bool := existsb (N.eqb x) s.

Section WithRandom.
Variable rnd : Random.

(** The [while True] loop, run for at most [fuel] iterations. *)
Fixpoint generate_unique_transaction_id (fuel : nat) (g : Generator)
  : result (UUID * Generator) :=
  match fuel with
  | O => OutOfFuel
  | S fuel' =>
      let transaction_id := uuid4 rnd (uuid_calls g) in
      if negb (mem transaction_id (used_transaction_ids g))
      then Ok (transaction_id,
               mkGenerator (transaction_id :: used_transaction_ids g)
                           (S (uuid_calls g)) (made g))
      else generate_unique_transaction_id fuel'
             (mkGenerator (used_transaction_ids g) (S (uuid_calls g)) (made g))
  end.

Definition generate_transaction (fuel : nat) (g : Generator)
  : result (Transaction * Generator) :=
  let d := draws rnd (made g) in
  let merchant_name := if d_merchant_kind d then d_company d else d_person d in
  match generate_unique_transaction_id fuel g with
  | OutOfFuel => OutOfFuel
  | Ok (id, g') =>
      Ok (mkTransaction id (d_customer_id d) (d_customer_name d) (d_timestamp d)
            (nth (d_type d) TRANSACTION_TYPES EmptyString) (d_amount d)
            (nth (d_city d) CITIES EmptyString) merchant_name (d_account d)
            (nth (d_status d) STATUSES EmptyString) "INR" (d_sentence d),
          mkGenerator (used_transaction_ids g') (uuid_calls g') (S (made g')))
  end.

(** The body of [for i in range(n)], [k] iterations left; [transactions]
    is the list built so far. *)
Fixpoint generate_loop (fuel k : nat) (transactions : list Transaction) (g : Generator)
  : result (list Transaction * Generator) :=
  match k with
  | O => Ok (transactions, g)
  | S k' =>
      match generate_transaction fuel g with
      | OutOfFuel => OutOfFuel
      | Ok (t, g') => generate_loop fuel k' (transactions ++ [t]) g'
      end
  end.

(** [range(n)] is empty for [n <= 0]. *)
Definition generate_transactions (fuel : nat) (n : Z) (g : Generator)
  : result (list Transaction * Generator) :=
  generate_loop fuel (Z.to_nat n) [] g.
End WithRandom.

(** *** Console and files *)

Inductive exn :=
| ValueError (msg : string)
| EOFError
| OSError (msg : string).

(** What the user does at one [input()] prompt; the end of the list is the
    end of standard input. *)
Inductive key :=
| Line (s : string)
| CtrlC.

Inductive event :=
| Prompt (msg : string)
| Out (msg : string)
| OutSummary (generated customers : nat)
| FsMakedirs (dir : string)
| FsOpen (file : string)
| FsWriteCsv (file : string) (data : list Transaction)
| FsWriteJson (file : string) (data : list Transaction)
| FsGetSize (file : string).

Definition is_file_event (ev : event) : bool :=
  match ev with
  | FsMakedirs _ | FsOpen _ | FsWriteCsv _ _ | FsWriteJson _ _ | FsGetSize _ => true
  | _ => false
  end.

(** How [validate_input] ends. *)
Inductive validated :=
| Return (n : Z) (rest : list key)
| Exit (code : Z)
| Raise (e : exn).

Section WithBuiltins.
(** Python's [str.strip], [str.lower] and [int]; [int] gives [None] where
    Python raises [ValueError]. *)
Variable strip lower : string -> string.
Variable int : string -> option Z.

Definition is_empty (s : string) : bool :=
  match s with EmptyString => true | _ => false end.

Definition log_then (l : list event) (r : list event * validated)
  : list event * validated := (l ++ fst r, snd r).

Definition ask : string := "How many transactions to generate? (e.g. 1000): ".

(** One pass of the [while True] loop per entry of the console. *)
Fixpoint validate_input (console : list key) : list event * validated :=
  match console with
  | [] => ([Prompt ask], Raise EOFError)
  | CtrlC :: _ => ([Prompt ask; Out "Operation cancelled by user."], Exit 0)
  | Line s :: rest =>
      let user_input := strip s in
      if is_empty user_input
      then log_then [Prompt ask; Out "Please enter a number."] (validate_input rest)
      else
        match int user_input with
        | None =>
            log_then [Prompt ask; Out "Invalid input. Please enter a valid number."]
                     (validate_input rest)
        | Some n =>
            if (n <=? 0)%Z
            then log_then [Prompt ask; Out "Please enter a positive number."]
                          (validate_input rest)
            else if (n >? 1000000)%Z
            then
              match rest with
              | [] => ([Prompt ask; Prompt "may take time. Continue? (y/n): "],
                       Raise EOFError)
              | CtrlC :: _ =>
                  ([Prompt ask; Prompt "may take time. Continue? (y/n): ";
                    Out "Operation cancelled by user."], Exit 0)
              | Line c :: rest' =>
                  let confirm := lower (strip c) in
                  if negb (String.eqb confirm "y" || String.eqb confirm "yes")
                  then log_then [Prompt ask; Prompt "may take time. Continue? (y/n): "]
                                (validate_input rest')
                  else ([Prompt ask; Prompt "may take time. Continue? (y/n): "],
                        Return n rest')
              end
            else ([Prompt ask], Return n rest)
        end
  end.
(** [os.path.dirname] *)
Variable dirname : string -> string.

(** The file system under the generator: which paths exist at the start
    and which operations fail. *)
Record FS := mkFS {
  path_exists : string -> bool;
  makedirs_fails : string -> bool;
  open_fails : string -> bool;
  write_fails : string -> bool
}.

Variable fs : FS.

Definition in_list (x : string) (l : list string) : bool := existsb (String.eqb x) l.

(** File operations return the directories created so far, or raise. *)
Definition IO : Type := (list event * (list string + exn))%type.

Definition ensure_directory_exists (created : list string) (filepath : string) : IO :=
  let directory := dirname filepath in
  if negb (is_empty directory)
     && negb (path_exists fs directory || in_list directory created)
  then
    if makedirs_fails fs directory
    then ([FsMakedirs directory], inr (OSError "Failed to create directory"))
    else ([FsMakedirs directory; Out "Created directory"], inl (directory :: created))
  else ([], inl created).

Definition save_to_csv (created : list string) (data : list Transaction)
           (filename : string) : IO :=
  match ensure_directory_exists created filename with
  | (l, inr e) => (l ++ [Out "Error saving CSV file"], inr e)
  | (l, inl created') =>
      if open_fails fs filename
      then (l ++ [FsOpen filename; Out "Error saving CSV file"], inr (OSError filename))
      else
        match data with
        | [] => (l ++ [FsOpen filename; Out "Unexpected error while saving CSV"],
                 inr (ValueError "No data to save"))
        | _ =>
            if write_fails fs filename
            then (l ++ [FsOpen filename; FsWriteCsv filename data;
                        Out "Error saving CSV file"], inr (OSError filename))
            else (l ++ [FsOpen filename; FsWriteCsv filename data;
                        Out "Successfully saved CSV"], inl created')
        end
  end.

Definition save_to_json (created : list string) (data : list Transaction)
           (filename : string) : IO :=
  match ensure_directory_exists created filename with
  | (l, inr e) => (l ++ [Out "Error saving JSON file"], inr e)
  | (l, inl created') =>
      if open_fails fs filename
      then (l ++ [FsOpen filename; Out "Error saving JSON file"], inr (OSError filename))
      else
        if write_fails fs filename
        then (l ++ [FsOpen filename; FsWriteJson filename data;
                    Out "Error saving JSON file"], inr (OSError filename))
        else (l ++ [FsOpen filename; FsWriteJson filename data;
                    Out "Successfully saved JSON"], inl created')
  end.

Definition csv_filename : string := "../sample_output/transactions.csv".
Definition json_filename : string := "../sample_output/transactions.json".

Definition unique_customers (transactions : list Transaction) : nat :=
  List.length (nodup string_dec (map customer_id transactions)).

Definition banner : list event := [Out "Financial Transaction Data Generator"].
Definition failure (l : list event) : list event * Z :=
  (l ++ [Out "An error occurred"], 1%Z).

(** The driver; the second component is the exit status of the
    process. *)
Definition main (rnd : Random) (fuel : nat) (console : list key)
  : result (list event * Z) :=
  let (l0, v) := validate_input console in
  match v with
  | Exit code => Ok (banner ++ l0, code)
  | Raise _ => Ok (failure (banner ++ l0))
  | Return n _ =>
      match generate_transactions rnd fuel n init with
      | OutOfFuel => OutOfFuel
      | Ok (transactions, _) =>
          match transactions with
          | [] => Ok (banner ++ l0 ++ [Out "No transactions were generated."], 0%Z)
          | _ =>
              match save_to_csv [] transactions csv_filename with
              | (l1, inr _) => Ok (failure (banner ++ l0 ++ [Out "Saving files..."] ++ l1))
              | (l1, inl created) =>
                  match save_to_json created transactions json_filename with
                  | (l2, inr _) =>
                      Ok (failure (banner ++ l0 ++ [Out "Saving files..."] ++ l1 ++ l2))
                  | (l2, inl _) =>
                      Ok (banner ++ l0 ++ [Out "Saving files..."] ++ l1 ++ l2
                            ++ [OutSummary (List.length transactions)
                                           (unique_customers transactions);
                                FsGetSize csv_filename; FsGetSize json_filename;
                                Out "Successfully generated transactions in CSV and JSON format!"],
                          0%Z)
                  end
              end
          end
      end
  end.
End WithBuiltins.

(** *** Module constants and the file-size helper *)

(** [str(n)] of a non-negative integer. *)
Definition decimal (n : nat) : string :=
  DecimalString.NilEmpty.string_of_uint (Nat.to_uint n).

Fixpoint zeros (k : nat) : string :=
  match k with
  | O => EmptyString
  | S k' => String "0" (zeros k')
  end.

(** The format specification [0{width}d] on a non-negative integer: zeros
    in front up to [width] characters, nothing cut. *)
Definition zero_pad (width : nat) (n : nat) : string :=
  let s := decimal n in
  String.append (zeros (width - String.length s)) s.

Definition CUSTOMER_POOL_SIZE : nat := 10000.

(** [f"C{10000 + i:05d}"] *)
Definition customer_id_at (i : nat) : string :=
  String "C" (zero_pad 5 (10000 + i)).

Definition CUSTOMER_IDS : list string :=
  map customer_id_at (seq 0 CUSTOMER_POOL_SIZE).

(** What [get_file_size] puts into its f-string: the number, before it is
    rounded to one decimal by [.1f], and the unit. *)
Inductive file_size :=
| Unknown
| Sized (value : Q) (unit : string).

(** The [for unit in ...] loop; [size_bytes /= 1024] is exact on the
    rationals, as it is on binary floating point below 2^53. *)
Fixpoint size_loop (units : list string) (size_bytes : Q) : file_size :=
  match units with
  | [] => Sized size_bytes "TB"
  | unit :: rest =>
      if Qle_bool 1024 size_bytes
      then size_loop rest (size_bytes / 1024)%Q
      else Sized size_bytes unit
  end.

(** [getsize] is [os.path.getsize], [None] where it raises OSError. *)
Definition get_file_size (getsize : string -> option N) (filepath : string) : file_size :=
  match getsize filepath with
  | Some size_bytes =>
      size_loop ["B"; "KB"; "MB"; "GB"]%string (inject_Z (Z.of_N size_bytes))
  | None => Unknown
  end.

End TransactionGenerator.

(** ** generate_sample_data.py *)

Module GenerateSampleData.
Import TransactionGenerator.

Definition statuses : list string := ["SUCCESS"; "FAILED"; "PENDING"]%string.

(** [[f"MERCHANT_{i:03d}" for i in range(1, 51)]] *)
Definition merchant_ids : list string :=
  map (fun i => String.append "MERCHANT_" (zero_pad 3 i)) (seq 1 50).

(** What one pass of the loop takes from [random] and the clock. *)
Record Draw := mkDraw {
  r_user : nat;          (* random.randint(1, 1000) *)
  r_merchant : nat;      (* index of random.choice(merchant_ids) *)
  r_amount : Q;          (* round(random.uniform(10.0, 1000.0), 2) *)
  r_status : nat;        (* index of random.choices(statuses, weights)[0] *)
  r_date : string        (* transaction_date.strftime("%Y-%m-%d") *)
}.

(** One data row handed to [writer.writerow]. *)
Record Record := mkRecord {
  user_id : string;
  merchant_id : string;
  transaction_amount : Q;
  status : string;
  transaction_date : string
}.

Definition header : list string :=
  ["user_id"; "merchant_id"; "transaction_amount"; "status"; "transaction_date"]%string.

Definition sample_row (d : Draw) : Record :=
  mkRecord (String.append "USER_" (zero_pad 4 (r_user d)))
           (nth (r_merchant d) merchant_ids EmptyString)
           (r_amount d)
           (nth (r_status d) statuses EmptyString)
           (r_date d).

(** The file written: the header row and one row per record; [range] is
    empty for [num_records <= 0]. *)
Definition generate_sample_transactions (draws : nat -> Draw) (num_records : Z)
  : list string * list Record :=
  (header, map (fun i => sample_row (draws i)) (seq 0 (Z.to_nat num_records))).

(** The table [spark.read.csv(..., header=True)] returns for such a file:
    the header names the columns [banking_analysis.py] uses and every cell
    of a written row holds a value. *)
Definition loaded (file : list string * list Record) : BankingAnalysis.Table :=
  map (fun r => BankingAnalysis.mkRow (Some (user_id r)) (Some (merchant_id r))
                  (Some (transaction_amount r)) (Some (status r))
                  (Some (transaction_date r)))
      (snd file).

End GenerateSampleData.

(** ** Reference quantities

    The quantities the views are compared with, written directly over the
    input table. *)

Module Reference.
Import DataFrame BankingAnalysis.

Definition has_merchant (m : string) (r : Row) : bool := key_match (merchant_id r) (Some m).
Definition has_user (u : string) (r : Row) : bool := key_match (user_id r) (Some u).
Definition is_failed (r : Row) : bool := col_eq (BankingAnalysis.status r) "FAILED".

(** The number of rows of merchant [m], and of its rows with status FAILED. *)
Definition merchant_count (m : string) (df : Table) : nat :=
  List.length (filter (has_merchant m) df).
Definition merchant_failed (m : string) (df : Table) : nat :=
  List.length (filter (fun r => has_merchant m r && is_failed r) df).

(** The distinct non-null merchant identifiers of the table. *)
Definition merchants (df : Table) : list string :=
  nodup string_dec (non_null (map merchant_id df)).

(** The amounts of the rows of user [u] that carry an amount. *)
Definition user_amounts (u : string) (df : Table) : list Q :=
  non_null (map transaction_amount (filter (has_user u) df)).

(** The arithmetic mean of a list of rationals. *)
Definition mean (xs : list Q) : Q := (Qsum xs / inject_Z (Z.of_nat (List.length xs)))%Q.

(** The non-null merchant identifiers in the order [groupBy] emits them. *)
Definition merchant_order (df : Table) : list string :=
  non_null (distinct key_eq_dec
              (map merchant_id (filter (fun r => isNotNull (merchant_id r)) df))).

(** The non-null user identifiers of the rows that carry an amount, in the
    order [groupBy] emits them. *)
Definition user_order (df : Table) : list string :=
  non_null (distinct key_eq_dec
              (map user_id
                 (filter (fun r => isNotNull (transaction_amount r) && isNotNull (user_id r))
                         df))).

(** The row of the failure-rate view for merchant [m]. *)
Definition failure_row (df : Table) (m : string) : FailureRow :=
  mkFailure (Some m) (merchant_count m df) (merchant_failed m df)
            (failure_rate_col (merchant_count m df) (merchant_failed m df)).

(** The row of a count view for merchant [m]. *)
Definition count_row (df : Table) (m : string) : CountRow :=
  mkCount (Some m) (merchant_count m df).

(** Rows in descending order of their count. *)
Definition sorted_desc (v : list CountRow) : Prop :=
  StronglySorted (fun a b => cn_count b <= cn_count a) v.

(** The errors reported on the console, with the text in front of them. *)
Definition errors (log : list event) : list (string * BankingAnalysis.exn) :=
  flat_map (fun ev => match ev with PrintError l e => [(l, e)] | _ => [] end) log.

Definition not_found : BankingAnalysis.exn :=
  FileNotFoundError "transactions.csv not found".

Definition no_format : BankingAnalysis.exn :=
  TypeError "unsupported format string passed to NoneType.__format__".

(** The two rankings [main] shows besides the top merchants. *)
Definition shown_users (df : Table) : list AvgRow :=
  limit 10 (orderBy_desc (fun a b => oQ_ltb (avg_transaction a) (avg_transaction b))
                         (avg_txn df)).
Definition shown_failures (df : Table) : list FailureRow :=
  limit 10 (orderBy_desc (fun a b => Q_ltb (fr_failure_rate a) (fr_failure_rate b))
                         (failure_rate df)).

(** Descending order on a nullable average, nulls last. *)
Definition avg_ge (a b : AvgRow) : Prop :=
  match avg_transaction a, avg_transaction b with
  | Some x, Some y => (y <= x)%Q
  | _, None => True
  | None, Some _ => False
  end.

Definition rate_ge (a b : FailureRow) : Prop :=
  (fr_failure_rate b <= fr_failure_rate a)%Q.

(** The number of rows with status FAILED and a merchant. *)
Definition failed_rows (df : Table) : nat :=
  List.length (filter (fun r => isNotNull (merchant_id r) && is_failed r) df).

End Reference.

Module GeneratorReference.
Import TransactionGenerator.

(** The number of distinct values among the first [m] results of
    [uuid.uuid4()]. *)
Definition distinct_draws (rnd : Random) (m : nat) : nat :=
  List.length (nodup N.eq_dec (map (uuid4 rnd) (seq 0 m))).

(** The set of used identifiers holds each value drawn so far once. *)
Definition consistent (rnd : Random) (g : Generator) : Prop :=
  NoDup (used_transaction_ids g)
  /\ forall x, In x (used_transaction_ids g) <-> exists i, i < uuid_calls g /\ uuid4 rnd i = x.

Definition file_events (log : list event) : list event := filter is_file_event log.

(** How a console that made [validate_input] return [n] and leave [rest]
    unread is built: entries without Ctrl-C, the accepted line and, above
    one million, the line that confirms it. *)
Definition accepted (strip lower : string -> string) (int : string -> option Z)
           (console : list key) (n : Z) (rest : list key) : Prop :=
  exists before s,
    ~ In CtrlC before
    /\ is_empty (strip s) = false
    /\ int (strip s) = Some n
    /\ (((n <= 1000000)%Z /\ console = before ++ Line s :: rest)
        \/ ((1000000 < n)%Z
            /\ exists c, console = before ++ Line s :: Line c :: rest
                         /\ (lower (strip c) = "y"%string
                             \/ lower (strip c) = "yes"%string))).

(** The calls of [os.makedirs] in a log. *)
Definition makedirs_calls (log : list event) : list event :=
  filter (fun ev => match ev with FsMakedirs _ => true | _ => false end) log.

End GeneratorReference.

(** ** Concrete environments *)

Module Samples.
Import BankingAnalysis TransactionGenerator.

(** A world in which the first of the three result files cannot be
    written. *)
Definition first_write_fails : World :=
  mkWorld true scenario false (fun f => String.eqb f avg_file).

(** A world with a header-only input file. *)
Definition header_only : World := mkWorld true [] false (fun _ => false).

(** The rows of the scenario's views for merchant M1 and user U1, and a
    row without merchant. *)
Definition m1_failure : FailureRow := mkFailure (Some "M1"%string) 3 1 (1 # 3).
Definition m1_count : CountRow := mkCount (Some "M1"%string) 3.
Definition u1_avg : AvgRow := mkAvg (Some "U1"%string) (Some (150 # 2)).
Definition no_merchant : Row :=
  mkRow (Some "U1"%string) None (Some 25%Q) (Some "SUCCESS"%string) None.
Definition no_user : Row :=
  mkRow None (Some "M1"%string) (Some 25%Q) (Some "FAILED"%string) None.

(** Worlds without the input file, and where nothing fails. *)
Definition missing_file : World := mkWorld false scenario false (fun _ => false).
Definition sound_disk : World := mkWorld true scenario false (fun _ => false).

(** A table whose only row has no merchant, on a disk where nothing
    fails. *)
Definition merchantless : World := mkWorld true [no_merchant] false (fun _ => false).

(** A table with six merchants, the last of them with a single row. *)
Definition only_merchant (m : string) : Row := mkRow None (Some m) None None None.
Definition six_merchants : Table :=
  map only_merchant ["A"; "A"; "B"; "B"; "C"; "C"; "D"; "D"; "E"; "E"; "F"]%string.

(** A random source whose UUIDs never repeat. *)
Definition counting : Random :=
  mkRandom N.of_nat
           (fun _ => mkDraws true "Acme" "Ann" "C10000" "Bob" "2024-01-01T00:00:00"
                             0 (50 # 1) 0 100000000 0 "lorem").

(** A random source that returns the same UUID for ever. *)
Definition stuck : Random := mkRandom (fun _ => 7%N) (draws counting).

Definition digit (c : ascii) : option Z :=
  let n := nat_of_ascii c in
  if (48 <=? n) && (n <=? 57) then Some (Z.of_nat (n - 48)) else None.

Fixpoint digits (s : string) (acc : Z) : option Z :=
  match s with
  | EmptyString => Some acc
  | String c t =>
      match digit c with
      | Some d => digits t (10 * acc + d)%Z
      | None => None
      end
  end.

(** [int] on plain decimal numerals with an optional minus sign. *)
Definition decimal_int (s : string) : option Z :=
  match s with
  | EmptyString => None
  | String "-" EmptyString => None
  | String "-" t => option_map Z.opp (digits t 0)
  | _ => digits s 0
  end.

(** [strip] and [lower] on entries without blanks or capitals. *)
Definition unchanged (s : string) : string := s.

(** A file system where the output directory exists and nothing fails. *)
Definition healthy : FS :=
  mkFS (fun _ => true) (fun _ => false) (fun _ => false) (fun _ => false).

(** [os.path.dirname] on the two output paths, and a file system where the
    output directory is still to be created. *)
Definition output_dir (path : string) : string := "../sample_output".
Definition bare : FS :=
  mkFS (fun _ => false) (fun _ => false) (fun _ => false) (fun _ => false).

(** Draws for the sample data, the file of three records they give, and a
    world whose input is that file. *)
Definition sample_draws (i : nat) : GenerateSampleData.Draw :=
  GenerateSampleData.mkDraw (1 + i mod 1000) (i mod 50) (10 # 1) (i mod 3) "2024-01-01".
Definition sample_world : World :=
  mkWorld true
          (GenerateSampleData.loaded
             (GenerateSampleData.generate_sample_transactions sample_draws 3))
          false (fun _ => false).

(** A file of 5 MiB, and nothing else on the disk. *)
Definition one_file (path : string) : option N :=
  if String.eqb path "transactions.csv" then Some 5242880%N else None.

Definition sample_main : Random -> nat -> list key -> result (list event * Z) :=
  TransactionGenerator.main unchanged unchanged decimal_int unchanged healthy.

End Samples.

(** * Properties *)

Import DataFrame BankingAnalysis Reference Samples.

(** ** Lists *)

Lemma filter_none {A} (p : A -> bool) (l : list A) :
  (forall x, In x l -> p x = false) -> filter p l = [].
Proof.
  induction l as [|a t IH]; simpl; intros H; [reflexivity|].
  rewrite (H a) by now left. apply IH. intros x Hx. apply H. now right.
Qed.

Lemma filter_filter {A} (p q : A -> bool) (l : list A) :
  filter p (filter q l) = filter (fun x => q x && p x) l.
Proof.
  induction l as [|a t IH]; simpl; [reflexivity|].
  destruct (q a); simpl; [destruct (p a)|]; now rewrite IH.
Qed.

Lemma concat_singletons {A B} (h : A -> B) (l : list A) :
  List.concat (map (fun a => [h a]) l) = map h l.
Proof. induction l as [|a t IH]; simpl; [reflexivity | now rewrite IH]. Qed.

Lemma filter_length_le {A} (p q : A -> bool) (l : list A) :
  List.length (filter (fun x => p x && q x) l) <= List.length (filter p l).
Proof.
  induction l as [|a t IH]; simpl; [lia|].
  destruct (p a); simpl; [destruct (q a); simpl; lia | exact IH].
Qed.

(** ** Grouping *)

Section GroupFacts.
Context {K : Type} (dec : forall a b : K, {a = b} + {a <> b}).

Lemma keqb_true (a b : K) : keqb dec a b = true <-> a = b.
Proof. unfold keqb. destruct (dec a b); split; congruence. Qed.

Lemma NoDup_remove_all (x : K) (l : list K) : NoDup l -> NoDup (remove dec x l).
Proof.
  induction 1 as [|y l Hy Hl IH]; simpl; [constructor|].
  destruct (dec x y); [exact IH|].
  constructor; [|exact IH].
  intro Hin. apply in_remove in Hin. tauto.
Qed.

Lemma distinct_In (k : K) (ks : list K) : In k (distinct dec ks) <-> In k ks.
Proof.
  induction ks as [|a t IH]; simpl; [tauto|].
  split.
  - intros [->|Hin]; [now left|].
    apply in_remove in Hin. right. tauto.
  - intros [->|Hin]; [now left|].
    destruct (dec a k) as [->|Hne]; [now left|].
    right. apply in_in_remove; [congruence | tauto].
Qed.

Lemma distinct_NoDup (ks : list K) : NoDup (distinct dec ks).
Proof.
  induction ks as [|a t IH]; simpl; constructor.
  - apply remove_In.
  - now apply NoDup_remove_all.
Qed.

Lemma groupBy_keys {R} (key : R -> K) (df : list R) :
  map fst (groupBy dec key df) = distinct dec (map key df).
Proof. unfold groupBy. rewrite map_map. simpl. apply map_id. Qed.

(** Summing a function over a duplicate-free list, one key set apart. *)
Lemma sum_remove (f : K -> nat) (k0 : K) (ks : list K) :
  NoDup ks ->
  list_sum (map f ks)
  = (if in_dec dec k0 ks then f k0 else 0) + list_sum (map f (remove dec k0 ks)).
Proof.
  induction 1 as [|y l Hy Hl IH]; simpl; [reflexivity|].
  destruct (dec k0 y) as [E|Hne].
  - subst y. destruct (dec k0 k0) as [E|E]; [|congruence].
    rewrite notin_remove by assumption. reflexivity.
  - destruct (dec y k0) as [E|E]; [congruence|].
    simpl. rewrite IH. destruct (in_dec dec k0 l); lia.
Qed.

(** The groups partition the table. *)
Lemma group_sizes_sum {R} (key : R -> K) (df : list R) :
  list_sum (map (fun k => List.length (filter (fun r => keqb dec (key r) k) df))
                (distinct dec (map key df)))
  = List.length df.
Proof.
  induction df as [|x t IH]; simpl; [reflexivity|].
  assert (Hself : keqb dec (key x) (key x) = true) by now apply keqb_true.
  rewrite Hself. simpl. f_equal.
  rewrite <- IH at 1.
  rewrite (sum_remove (fun k => List.length (filter (fun r => keqb dec (key r) k) t))
                      (key x) _ (distinct_NoDup (map key t))).
  assert (Hrest :
    map (fun k => List.length
                    (if keqb dec (key x) k
                     then x :: filter (fun r => keqb dec (key r) k) t
                     else filter (fun r => keqb dec (key r) k) t))
        (remove dec (key x) (distinct dec (map key t)))
    = map (fun k => List.length (filter (fun r => keqb dec (key r) k) t))
          (remove dec (key x) (distinct dec (map key t)))).
  { apply map_ext_in. intros k Hk. apply in_remove in Hk. destruct Hk as [_ Hne].
    destruct (keqb dec (key x) k) eqn:E; [|reflexivity].
    apply keqb_true in E. congruence. }
  rewrite Hrest.
  destruct (in_dec dec (key x) (distinct dec (map key t))) as [Hin|Hnin]; [reflexivity|].
  assert (Hnone : filter (fun r => keqb dec (key r) (key x)) t = []).
  { apply filter_none. intros r Hr.
    destruct (keqb dec (key r) (key x)) eqn:E; [|reflexivity].
    exfalso. apply Hnin. apply distinct_In. apply keqb_true in E.
    rewrite <- E. now apply in_map. }
  rewrite Hnone. reflexivity.
Qed.
End GroupFacts.

(** ** Nullable keys *)

Lemma key_match_Some_r (a : option string) (m : string) :
  key_match a (Some m) = true <-> a = Some m.
Proof.
  destruct a as [x|]; simpl; [|split; discriminate].
  rewrite String.eqb_eq. split; congruence.
Qed.

Lemma key_match_Some_l (m : string) (b : option string) :
  key_match (Some m) b = true <-> b = Some m.
Proof.
  destruct b as [y|]; simpl; [|split; discriminate].
  rewrite String.eqb_eq. split; congruence.
Qed.

Lemma non_null_In {A} (a : A) (col : list (option A)) :
  In a (non_null col) <-> In (Some a) col.
Proof.
  unfold non_null. rewrite in_flat_map. split.
  - intros [[x|] [Hin Hx]]; simpl in Hx; [|tauto].
    destruct Hx as [->|[]]. exact Hin.
  - intros Hin. exists (Some a). split; [exact Hin | now left].
Qed.

Lemma non_null_all_Some {A} (col : list (option A)) :
  (forall k, In k col -> k <> None) -> map Some (non_null col) = col.
Proof.
  induction col as [|[a|] t IH]; simpl; intros H; [reflexivity| |].
  - f_equal. apply IH. intros k Hk. apply H. now right.
  - exfalso. apply (H None); [now left | reflexivity].
Qed.

Lemma non_null_NoDup {A} (col : list (option A)) :
  NoDup col -> NoDup (non_null col).
Proof.
  induction 1 as [|[a|] t Ht Hnd IH]; simpl; [constructor| |exact IH].
  constructor; [|exact IH]. now rewrite non_null_In.
Qed.

(** The keys of a grouping that follows [filter(isNotNull)] are non-null. *)
Lemma filtered_keys_not_null {R} (key : R -> option string) (p : R -> bool) (df : list R) :
  (forall r, p r = true -> key r <> None) ->
  forall k, In k (distinct key_eq_dec (map key (filter p df))) -> k <> None.
Proof.
  intros Hp k Hk. apply distinct_In in Hk. apply in_map_iff in Hk.
  destruct Hk as [r [<- Hr]]. apply filter_In in Hr. apply Hp. tauto.
Qed.

Lemma merchant_keys_not_null (df : Table) (k : option string) :
  In k (distinct key_eq_dec
          (map merchant_id (filter (fun r => isNotNull (merchant_id r)) df))) ->
  k <> None.
Proof.
  apply filtered_keys_not_null. intros r Hr E. rewrite E in Hr. discriminate.
Qed.

Lemma merchant_order_keys (df : Table) :
  map Some (merchant_order df)
  = distinct key_eq_dec (map merchant_id (filter (fun r => isNotNull (merchant_id r)) df)).
Proof. apply non_null_all_Some. apply merchant_keys_not_null. Qed.

Lemma merchant_order_NoDup (df : Table) : NoDup (merchant_order df).
Proof. apply non_null_NoDup. apply distinct_NoDup. Qed.

Lemma merchant_order_In (df : Table) (m : string) :
  In m (merchant_order df) <-> exists r, In r df /\ merchant_id r = Some m.
Proof.
  unfold merchant_order. rewrite non_null_In, distinct_In, in_map_iff. split.
  - intros [r [E Hr]]. apply filter_In in Hr. exists r. tauto.
  - intros [r [Hr E]]. exists r. split; [exact E|].
    apply filter_In. split; [exact Hr|]. now rewrite E.
Qed.

Lemma merchants_In (df : Table) (m : string) :
  In m (merchants df) <-> exists r, In r df /\ merchant_id r = Some m.
Proof.
  unfold merchants. rewrite nodup_In, non_null_In, in_map_iff. split.
  - intros [r [E Hr]]. exists r. tauto.
  - intros [r [Hr E]]. exists r. tauto.
Qed.

(** [groupBy] emits as many groups as there are distinct non-null merchant
    identifiers. *)
Lemma merchant_order_length (df : Table) :
  List.length (merchant_order df) = List.length (merchants df).
Proof.
  apply Permutation_length. apply NoDup_Permutation.
  - apply merchant_order_NoDup.
  - apply NoDup_nodup.
  - intros m. now rewrite merchant_order_In, merchants_In.
Qed.

(** ** The count views in closed form *)

Lemma keqb_key_match (a : option string) (m : string) :
  keqb key_eq_dec a (Some m) = key_match a (Some m).
Proof.
  destruct (key_match a (Some m)) eqn:E.
  - apply keqb_true. now apply key_match_Some_r.
  - destruct (keqb key_eq_dec a (Some m)) eqn:E2; [|reflexivity].
    apply keqb_true in E2. apply key_match_Some_r in E2. congruence.
Qed.

Lemma group_count_total (m : string) (df : Table) :
  List.length (filter (fun r => keqb key_eq_dec (merchant_id r) (Some m))
                      (filter (fun r => isNotNull (merchant_id r)) df))
  = merchant_count m df.
Proof.
  rewrite filter_filter. unfold merchant_count. f_equal. apply filter_ext.
  intros r. rewrite keqb_key_match. unfold has_merchant.
  destruct (merchant_id r); reflexivity.
Qed.

Lemma group_count_failed (m : string) (df : Table) :
  List.length (filter (fun r => keqb key_eq_dec (merchant_id r) (Some m))
                      (filter (fun r => col_eq (BankingAnalysis.status r) "FAILED"
                                        && isNotNull (merchant_id r)) df))
  = merchant_failed m df.
Proof.
  rewrite filter_filter. unfold merchant_failed. f_equal. apply filter_ext.
  intros r. rewrite keqb_key_match. unfold has_merchant, is_failed.
  destruct (merchant_id r); simpl key_match; simpl isNotNull.
  - rewrite andb_true_r. apply andb_comm.
  - now rewrite !andb_false_r.
Qed.

Lemma total_closed (df : Table) : total df = map (count_row df) (merchant_order df).
Proof.
  unfold total, groupBy. rewrite map_map. simpl.
  rewrite <- merchant_order_keys, map_map.
  apply map_ext. intros m. unfold count_row, count_star. f_equal.
  apply group_count_total.
Qed.

(** The matching right rows of a left join whose right side has one row
    per key. *)
Lemma join_lookup (c : option string -> nat) (ks : list (option string)) (m : string) :
  NoDup ks ->
  filter (fun f => key_match (Some m) (cn_merchant_id f)) (map (fun k => mkCount k (c k)) ks)
  = if in_dec key_eq_dec (Some m) ks then [mkCount (Some m) (c (Some m))] else [].
Proof.
  induction 1 as [|y l Hy Hl IH]; [reflexivity|].
  cbn [map filter cn_merchant_id].
  destruct (key_match (Some m) y) eqn:Hm.
  - apply key_match_Some_l in Hm. subst y. rewrite IH.
    destruct (in_dec key_eq_dec (Some m) l) as [i|_]; [contradiction|].
    destruct (in_dec key_eq_dec (Some m) (Some m :: l)) as [_|n]; [reflexivity|].
    exfalso. apply n. now left.
  - rewrite IH.
    destruct (in_dec key_eq_dec (Some m) l) as [i|n];
      destruct (in_dec key_eq_dec (Some m) (y :: l)) as [i'|n']; try reflexivity.
    + exfalso. apply n'. now right.
    + destruct i' as [E|i']; [|contradiction].
      subst y. rewrite (proj2 (key_match_Some_l m (Some m)) eq_refl) in Hm. discriminate.
Qed.

Lemma join_left_closed (cT cF : option string -> nat) (ms : list string)
      (ksF : list (option string)) :
  NoDup ksF ->
  join_left (map (fun m => mkCount (Some m) (cT (Some m))) ms)
            (map (fun k => mkCount k (cF k)) ksF)
  = map (fun m => mkJoined (Some m) (cT (Some m))
                    (if in_dec key_eq_dec (Some m) ksF then Some (cF (Some m)) else None))
        ms.
Proof.
  intros Hnd. unfold join_left.
  rewrite flat_map_concat_map, map_map.
  etransitivity; [|apply concat_singletons]. f_equal.
  apply map_ext. intros m. cbn [cn_merchant_id cn_count].
  rewrite (join_lookup cF _ m Hnd).
  destruct (in_dec key_eq_dec (Some m) ksF); reflexivity.
Qed.

Theorem failure_rate_closed (df : Table) :
  failure_rate df = map (failure_row df) (merchant_order df).
Proof.
  unfold failure_rate. rewrite total_closed.
  unfold failed, groupBy. rewrite map_map. simpl.
  set (fdf := filter (fun r => col_eq (BankingAnalysis.status r) "FAILED"
                               && isNotNull (merchant_id r)) df).
  set (cF := fun k => count_star (filter (fun r => keqb key_eq_dec (merchant_id r) k) fdf)).
  change (map (count_row df) (merchant_order df))
    with (map (fun m => mkCount (Some m)
                          ((fun k => match k with Some x => merchant_count x df | None => 0 end)
                             (Some m)))
              (merchant_order df)).
  rewrite (join_left_closed _ cF (merchant_order df) _
             (distinct_NoDup key_eq_dec (map merchant_id fdf))).
  rewrite map_map. apply map_ext. intros m. simpl.
  assert (HcF : cF (Some m) = merchant_failed m df) by apply group_count_failed.
  unfold failure_row.
  destruct (in_dec key_eq_dec (Some m) (distinct key_eq_dec (map merchant_id fdf)))
    as [Hin|Hnin]; simpl.
  - now rewrite HcF.
  - assert (H0 : merchant_failed m df = 0).
    { rewrite <- HcF. unfold cF, count_star. rewrite filter_none; [reflexivity|].
      intros r Hr. destruct (keqb key_eq_dec (merchant_id r) (Some m)) eqn:E; [|reflexivity].
      exfalso. apply Hnin. apply distinct_In. apply keqb_true in E. rewrite <- E.
      now apply in_map. }
    now rewrite H0.
Qed.

Lemma filter_map_comm {A B} (f : A -> B) (p : B -> bool) (l : list A) :
  filter p (map f l) = map f (filter (fun a => p (f a)) l).
Proof.
  induction l as [|a t IH]; simpl; [reflexivity|].
  destruct (p (f a)); simpl; now rewrite IH.
Qed.

Lemma count_once (l : list string) (m : string) :
  NoDup l -> In m l -> List.length (filter (fun x => String.eqb x m) l) = 1.
Proof.
  induction 1 as [|x l Hx Hl IH]; simpl; [tauto|].
  intros [->|Hin].
  - rewrite String.eqb_refl. simpl. rewrite filter_none; [reflexivity|].
    intros y Hy. apply String.eqb_neq. congruence.
  - destruct (String.eqb x m) eqn:E; [|now apply IH].
    apply String.eqb_eq in E. congruence.
Qed.

Lemma merchant_count_pos (df : Table) (m : string) :
  In m (merchant_order df) -> 1 <= merchant_count m df.
Proof.
  intros Hin. apply merchant_order_In in Hin. destruct Hin as [r [Hr E]].
  unfold merchant_count.
  assert (Hf : In r (filter (has_merchant m) df)).
  { apply filter_In. split; [exact Hr|]. unfold has_merchant. now apply key_match_Some_r. }
  destruct (filter (has_merchant m) df); [destruct Hf | simpl; lia].
Qed.

Lemma merchant_failed_le (df : Table) (m : string) :
  merchant_failed m df <= merchant_count m df.
Proof. apply filter_length_le. Qed.

(** Every row of the failure-rate view is the row of a merchant of the
    table. *)
Lemma failure_rate_rows (df : Table) (row : FailureRow) :
  In row (failure_rate df) <-> exists m, In m (merchant_order df) /\ row = failure_row df m.
Proof.
  rewrite failure_rate_closed, in_map_iff. split.
  - intros [m [E Hm]]. exists m. split; [exact Hm | now symmetry].
  - intros [m [Hm E]]. exists m. split; [now symmetry | exact Hm].
Qed.

Lemma failure_rate_keys (df : Table) :
  map fr_merchant_id (failure_rate df) = map Some (merchant_order df).
Proof. rewrite failure_rate_closed, map_map. reflexivity. Qed.

Lemma map_Some_NoDup {A} (l : list A) : NoDup l -> NoDup (map Some l).
Proof.
  induction 1 as [|x l Hx Hl IH]; simpl; constructor; [|exact IH].
  rewrite in_map_iff. intros [y [E Hy]]. congruence.
Qed.

(** The ratio taken when the guard [total_txns > 0] holds. *)
Lemma failure_rate_col_pos (t f : nat) :
  1 <= t -> failure_rate_col t f = (inject_Z (Z.of_nat f) / inject_Z (Z.of_nat t))%Q.
Proof.
  intros Ht. unfold failure_rate_col.
  destruct (0 <? t) eqn:E; [reflexivity|]. apply Nat.ltb_ge in E. lia.
Qed.

Lemma ratio_bounds (t f : nat) :
  1 <= t -> f <= t ->
  (0 <= inject_Z (Z.of_nat f) / inject_Z (Z.of_nat t)
   /\ inject_Z (Z.of_nat f) / inject_Z (Z.of_nat t) <= 1)%Q.
Proof.
  intros Ht Hf.
  assert (Hpos : (0 < inject_Z (Z.of_nat t))%Q).
  { change 0%Q with (inject_Z 0). rewrite <- Zlt_Qlt. lia. }
  split.
  - apply Qle_shift_div_l; [exact Hpos|]. rewrite Qmult_0_l.
    change 0%Q with (inject_Z 0). rewrite <- Zle_Qle. lia.
  - apply Qle_shift_div_r; [exact Hpos|]. rewrite Qmult_1_l.
    rewrite <- Zle_Qle. lia.
Qed.

(** C1. The failure-rate view has one row per distinct non-null
    merchant_id of the table and no other row; the row of merchant [m]
    carries total_txns = the number of rows of [m], failed_txns = the number
    of rows of [m] whose status is "FAILED" (0 when there is none, from the
    left join and the zero fill), and failure_rate = failed_txns /
    total_txns.  On the 4-row scenario the rates are 1/3 for M1 and 0 for
    M2. *)
Theorem failure_rate_view_correct (df : Table) :
  NoDup (map fr_merchant_id (failure_rate df))
  /\ (forall m, (exists r, In r df /\ merchant_id r = Some m)
                <-> In (Some m) (map fr_merchant_id (failure_rate df)))
  /\ (forall row, In row (failure_rate df) ->
        exists m, fr_merchant_id row = Some m
                  /\ total_txns row = merchant_count m df
                  /\ failed_txns row = merchant_failed m df
                  /\ fr_failure_rate row
                     = (inject_Z (Z.of_nat (failed_txns row))
                        / inject_Z (Z.of_nat (total_txns row)))%Q)
  /\ failure_rate scenario
     = [ mkFailure (Some "M1"%string) 3 1 (1 # 3);
         mkFailure (Some "M2"%string) 1 0 0 ].
Proof.
  split; [|split; [|split]].
  - rewrite failure_rate_keys. apply map_Some_NoDup, merchant_order_NoDup.
  - intros m. rewrite failure_rate_keys, <- merchant_order_In, in_map_iff. split.
    + intros Hm. now exists m.
    + intros [x [E Hx]]. congruence.
  - intros row Hrow. apply failure_rate_rows in Hrow. destruct Hrow as [m [Hm ->]].
    exists m. cbn [failure_row fr_merchant_id total_txns failed_txns fr_failure_rate].
    repeat split. apply failure_rate_col_pos. now apply merchant_count_pos.
  - reflexivity.
Qed.

(** C4. Every failure rate of the view lies in [0, 1] and is 0 when
    failed_txns is 0; the column is computed by the guarded division, whose
    else-branch gives 0, and that branch is never taken because every row of
    the view has total_txns >= 1. *)
Theorem failure_rate_bounded (df : Table) :
  (forall row, In row (failure_rate df) ->
     (0 <= fr_failure_rate row /\ fr_failure_rate row <= 1)%Q
     /\ (failed_txns row = 0 -> (fr_failure_rate row == 0)%Q)
     /\ fr_failure_rate row = failure_rate_col (total_txns row) (failed_txns row)
     /\ (0 <? total_txns row) = true)
  /\ (forall f, failure_rate_col 0 f = 0%Q).
Proof.
  split; [|reflexivity].
  intros row Hrow. apply failure_rate_rows in Hrow. destruct Hrow as [m [Hm ->]].
  cbn [failure_row fr_merchant_id total_txns failed_txns fr_failure_rate].
  pose proof (merchant_count_pos df m Hm) as Hpos.
  pose proof (merchant_failed_le df m) as Hle.
  rewrite (failure_rate_col_pos _ _ Hpos).
  split; [now apply ratio_bounds|]. split; [|split].
  - intros ->. simpl. unfold Qdiv. now rewrite Qmult_0_l.
  - reflexivity.
  - apply Nat.ltb_lt. lia.
Qed.

(** C10. In the failure-rate view every distinct non-null merchant_id of
    the table appears in exactly one row, every row has
    0 <= failed_txns <= total_txns and total_txns >= 1, and the total_txns
    of all rows add up to the number of rows with a non-null merchant_id. *)
Theorem failure_rate_invariant (df : Table) :
  (forall m r, In r df -> merchant_id r = Some m ->
     List.length (filter (fun row => key_match (fr_merchant_id row) (Some m))
                         (failure_rate df)) = 1)
  /\ (forall row, In row (failure_rate df) ->
        0 <= failed_txns row /\ failed_txns row <= total_txns row /\ 1 <= total_txns row)
  /\ list_sum (map total_txns (failure_rate df))
     = List.length (filter (fun r => isNotNull (merchant_id r)) df).
Proof.
  split; [|split].
  - intros m r Hr E.
    rewrite failure_rate_closed, filter_map_comm, length_map.
    cbn [failure_row fr_merchant_id key_match].
    apply count_once; [apply merchant_order_NoDup|].
    apply merchant_order_In. now exists r.
  - intros row Hrow. apply failure_rate_rows in Hrow. destruct Hrow as [m [Hm ->]].
    cbn [failure_row total_txns failed_txns].
    split; [lia|]. split; [apply merchant_failed_le | now apply merchant_count_pos].
  - rewrite failure_rate_closed, map_map. cbn [failure_row total_txns].
    rewrite <- (group_sizes_sum key_eq_dec merchant_id
                  (filter (fun r => isNotNull (merchant_id r)) df)).
    rewrite <- merchant_order_keys, map_map. f_equal.
    apply map_ext. intros m. symmetry. apply group_count_total.
Qed.

(** ** Ordering and truncation *)

Section SortFacts.
Context {R : Type} (ltb : R -> R -> bool).

Lemma insert_desc_perm (x : R) (l : list R) : Permutation (insert_desc ltb x l) (x :: l).
Proof.
  induction l as [|y t IH]; simpl; [apply Permutation_refl|].
  destruct (ltb x y); [|apply Permutation_refl].
  eapply Permutation_trans; [apply perm_skip, IH | apply perm_swap].
Qed.

Lemma orderBy_desc_perm (l : list R) : Permutation (orderBy_desc ltb l) l.
Proof.
  induction l as [|x t IH]; simpl; [apply Permutation_refl|].
  eapply Permutation_trans; [apply insert_desc_perm | now apply perm_skip].
Qed.

Lemma orderBy_desc_length (l : list R) :
  List.length (orderBy_desc ltb l) = List.length l.
Proof. apply Permutation_length, orderBy_desc_perm. Qed.

Lemma orderBy_desc_In (x : R) (l : list R) : In x (orderBy_desc ltb l) <-> In x l.
Proof.
  split; apply Permutation_in; [|apply Permutation_sym]; apply orderBy_desc_perm.
Qed.

End SortFacts.

Lemma limit_In {R} (n : nat) (x : R) (l : list R) : In x (limit n l) -> In x l.
Proof.
  unfold limit. revert l. induction n as [|n IH]; intros [|y t]; simpl; try tauto.
  intros [->|H]; [now left | right; now apply IH].
Qed.

Lemma limit_sorted {R} (ge : R -> R -> Prop) (n : nat) (l : list R) :
  StronglySorted ge l -> StronglySorted ge (limit n l).
Proof.
  unfold limit. intros H. revert n.
  induction H as [|y t Ht IH Hy]; intros [|n]; simpl; try constructor.
  - apply IH.
  - rewrite Forall_forall in *. intros z Hz. apply Hy. now apply (limit_In n).
Qed.

Lemma insert_desc_sorted (x : CountRow) (l : list CountRow) :
  sorted_desc l -> sorted_desc (insert_desc count_ltb x l).
Proof.
  unfold sorted_desc. induction 1 as [|y t Ht IH Hy]; simpl.
  - constructor; constructor.
  - unfold count_ltb at 1. destruct (cn_count x <? cn_count y) eqn:E.
    + apply Nat.ltb_lt in E. constructor; [exact IH|].
      rewrite Forall_forall in *. intros z Hz.
      apply (Permutation_in _ (insert_desc_perm count_ltb x t)) in Hz.
      destruct Hz as [<-|Hz]; [lia | now apply Hy].
    + apply Nat.ltb_ge in E. constructor; [now constructor|].
      constructor; [exact E|].
      rewrite Forall_forall in *. intros z Hz. specialize (Hy z Hz). lia.
Qed.

Lemma orderBy_desc_sorted (l : list CountRow) : sorted_desc (orderBy_desc count_ltb l).
Proof.
  induction l as [|x t IH]; simpl; [constructor | now apply insert_desc_sorted].
Qed.

Lemma top_merchants_closed (df : Table) :
  top_merchants df
  = limit 5 (orderBy_desc count_ltb (map (count_row df) (merchant_order df))).
Proof.
  unfold top_merchants. change (map _ (groupBy _ _ _)) with (total df).
  now rewrite total_closed.
Qed.

(** C3. The top-merchants view has min(5, number of distinct non-null
    merchant_id values) rows, each row carries a merchant of the table with
    txn_count = the number of rows of that merchant, and the rows are in
    non-increasing order of txn_count; on the 4-row scenario the view is
    [(M1,3), (M2,1)]. *)
Theorem top_merchants_correct (df : Table) :
  List.length (top_merchants df) = Nat.min 5 (List.length (merchants df))
  /\ (forall row, In row (top_merchants df) ->
        exists m, cn_merchant_id row = Some m
                  /\ In m (merchants df)
                  /\ cn_count row = merchant_count m df)
  /\ sorted_desc (top_merchants df)
  /\ top_merchants scenario
     = [ mkCount (Some "M1"%string) 3; mkCount (Some "M2"%string) 1 ].
Proof.
  split; [|split; [|split]].
  - rewrite top_merchants_closed. unfold limit.
    now rewrite length_firstn, orderBy_desc_length, length_map, merchant_order_length.
  - intros row Hrow. rewrite top_merchants_closed in Hrow.
    apply limit_In, orderBy_desc_In, in_map_iff in Hrow.
    destruct Hrow as [m [<- Hm]]. exists m.
    split; [reflexivity|]. split; [|reflexivity].
    apply merchants_In. now apply merchant_order_In.
  - rewrite top_merchants_closed. apply limit_sorted, orderBy_desc_sorted.
  - reflexivity.
Qed.

(** Spark fixes neither the order of the groups nor the order of rows with
    equal counts.  The same facts hold of the first five rows of any
    arrangement of the grouped counts that is in descending order. *)
Remark top_merchants_any_order (df : Table) (v : list CountRow) :
  Permutation (total df) v -> sorted_desc v ->
  List.length (limit 5 v) = Nat.min 5 (List.length (merchants df))
  /\ (forall row, In row (limit 5 v) ->
        exists m, cn_merchant_id row = Some m
                  /\ In m (merchants df)
                  /\ cn_count row = merchant_count m df)
  /\ sorted_desc (limit 5 v).
Proof.
  intros Hperm Hsorted. split; [|split].
  - unfold limit. rewrite length_firstn, <- (Permutation_length Hperm), total_closed.
    now rewrite length_map, merchant_order_length.
  - intros row Hrow. apply limit_In in Hrow.
    apply (Permutation_in _ (Permutation_sym Hperm)) in Hrow.
    rewrite total_closed in Hrow. apply in_map_iff in Hrow.
    destruct Hrow as [m [<- Hm]]. exists m.
    split; [reflexivity|]. split; [|reflexivity].
    apply merchants_In. now apply merchant_order_In.
  - now apply limit_sorted.
Qed.

Remark top_merchants_scenario_any_order (v : list CountRow) :
  Permutation (total scenario) v -> sorted_desc v ->
  limit 5 v = [ mkCount (Some "M1"%string) 3; mkCount (Some "M2"%string) 1 ].
Proof.
  intros Hperm Hsorted.
  change (total scenario)
    with [ mkCount (Some "M1"%string) 3; mkCount (Some "M2"%string) 1 ] in Hperm.
  apply Permutation_length_2_inv in Hperm. destruct Hperm as [->| ->]; [reflexivity|].
  exfalso. inversion Hsorted as [|a l _ Hall]; subst.
  inversion Hall as [|b l' Hle _]; subst. cbn in Hle. lia.
Qed.

(** ** The average-transaction view *)

Lemma user_keys_not_null (df : Table) (k : option string) :
  In k (distinct key_eq_dec
          (map user_id
             (filter (fun r => isNotNull (transaction_amount r) && isNotNull (user_id r)) df))) ->
  k <> None.
Proof.
  apply filtered_keys_not_null. intros r Hr E. rewrite E in Hr.
  rewrite andb_false_r in Hr. discriminate.
Qed.

Lemma user_order_keys (df : Table) :
  map Some (user_order df)
  = distinct key_eq_dec
      (map user_id
         (filter (fun r => isNotNull (transaction_amount r) && isNotNull (user_id r)) df)).
Proof. apply non_null_all_Some. apply user_keys_not_null. Qed.

Lemma user_order_NoDup (df : Table) : NoDup (user_order df).
Proof. apply non_null_NoDup. apply distinct_NoDup. Qed.

Lemma user_order_In (df : Table) (u : string) :
  In u (user_order df)
  <-> exists r, In r df /\ user_id r = Some u /\ transaction_amount r <> None.
Proof.
  unfold user_order. rewrite non_null_In, distinct_In, in_map_iff. split.
  - intros [r [E Hr]]. apply filter_In in Hr. destruct Hr as [Hr Hp].
    exists r. split; [exact Hr|]. split; [exact E|].
    intros Ha. rewrite Ha in Hp. discriminate.
  - intros [r [Hr [E Ha]]]. exists r. split; [exact E|].
    apply filter_In. split; [exact Hr|]. rewrite E.
    destruct (transaction_amount r); [reflexivity | congruence].
Qed.

(** The amounts averaged in the group of user [u] are the amounts of the
    rows of [u] that carry one. *)
Lemma group_amounts (u : string) (df : Table) :
  non_null (map transaction_amount
              (filter (fun r => keqb key_eq_dec (user_id r) (Some u))
                 (filter (fun r => isNotNull (transaction_amount r) && isNotNull (user_id r))
                         df)))
  = user_amounts u df.
Proof.
  rewrite filter_filter. unfold user_amounts.
  induction df as [|r t IH]; [reflexivity|].
  cbn [filter]. rewrite keqb_key_match. unfold has_user at 1.
  destruct (key_match (user_id r) (Some u)) eqn:E.
  - apply key_match_Some_r in E. rewrite E. cbn [isNotNull].
    rewrite !andb_true_r.
    destruct (transaction_amount r) as [a|] eqn:Ea; cbn [isNotNull map non_null flat_map].
    + rewrite Ea. cbn [app]. f_equal. exact IH.
    + rewrite Ea. exact IH.
  - rewrite andb_false_r. exact IH.
Qed.

Lemma user_amounts_nonempty (df : Table) (u : string) :
  In u (user_order df) -> user_amounts u df <> [].
Proof.
  intros Hu. apply user_order_In in Hu. destruct Hu as [r [Hr [E Ha]]].
  destruct (transaction_amount r) as [a|] eqn:Ea; [|congruence].
  assert (Hin : In a (user_amounts u df)).
  { unfold user_amounts. apply non_null_In. rewrite <- Ea. apply in_map.
    apply filter_In. split; [exact Hr|]. unfold has_user. now apply key_match_Some_r. }
  intros Hnil. rewrite Hnil in Hin. destruct Hin.
Qed.

Lemma avg_of_values (col : list (option Q)) :
  non_null col <> [] -> avg col = Some (mean (non_null col)).
Proof.
  unfold avg, mean. destruct (non_null col); [congruence | reflexivity].
Qed.

Theorem avg_txn_closed (df : Table) :
  avg_txn df = map (fun u => mkAvg (Some u) (Some (mean (user_amounts u df)))) (user_order df).
Proof.
  unfold avg_txn, groupBy. rewrite map_map. cbn [fst snd].
  rewrite <- user_order_keys, map_map.
  apply map_ext_in. intros u Hu. f_equal.
  rewrite avg_of_values; rewrite group_amounts; [reflexivity|].
  now apply user_amounts_nonempty.
Qed.

(** C2. The average-transaction view has exactly one row per distinct
    non-null user_id among the rows where user_id and amount are both
    non-null, and the avg_transaction of that row is the arithmetic mean of
    the amounts of that user's retained rows; on the 4-row scenario it is
    75 for U1 and 250 for U2. *)
Theorem avg_txn_correct (df : Table) :
  NoDup (map au_user_id (avg_txn df))
  /\ (forall u, (exists r, In r df /\ user_id r = Some u /\ transaction_amount r <> None)
                <-> In (Some u) (map au_user_id (avg_txn df)))
  /\ (forall row, In row (avg_txn df) ->
        exists u, au_user_id row = Some u
                  /\ user_amounts u df <> []
                  /\ avg_transaction row = Some (mean (user_amounts u df)))
  /\ (exists q1 q2,
        avg_txn scenario
        = [ mkAvg (Some "U1"%string) (Some q1); mkAvg (Some "U2"%string) (Some q2) ]
        /\ (q1 == 75)%Q /\ (q2 == 250)%Q).
Proof.
  assert (Hkeys : map au_user_id (avg_txn df) = map Some (user_order df)).
  { rewrite avg_txn_closed, map_map. reflexivity. }
  split; [|split; [|split]].
  - rewrite Hkeys. apply map_Some_NoDup, user_order_NoDup.
  - intros u. rewrite Hkeys, <- user_order_In, in_map_iff. split.
    + intros Hu. now exists u.
    + intros [x [E Hx]]. congruence.
  - intros row Hrow. rewrite avg_txn_closed in Hrow. apply in_map_iff in Hrow.
    destruct Hrow as [u [<- Hu]]. exists u.
    split; [reflexivity|]. split; [now apply user_amounts_nonempty | reflexivity].
  - exists (150 # 2)%Q, (500 # 2)%Q. split; [reflexivity|]. split; reflexivity.
Qed.

(** ** Null handling *)

Lemma filter_drop {A} (p : A -> bool) (l1 l2 : list A) (x : A) :
  p x = false -> filter p (l1 ++ x :: l2) = filter p (l1 ++ l2).
Proof. intros H. rewrite !filter_app. simpl. now rewrite H. Qed.

Lemma filter_keep {A} (p : A -> bool) (l1 l2 : list A) (x : A) :
  p x = true -> filter p (l1 ++ x :: l2) = filter p l1 ++ x :: filter p l2.
Proof. intros H. rewrite !filter_app. simpl. now rewrite H. Qed.

Lemma non_null_app {A} (c1 c2 : list (option A)) :
  non_null (c1 ++ c2) = non_null c1 ++ non_null c2.
Proof. unfold non_null. apply flat_map_app. Qed.

(** C5. A row with a null merchant_id is invisible to the failure-rate and
    top-merchants views, yet, when its user_id and amount are present, it
    has a group in the average-transaction view and its amount is one of
    the amounts averaged there; and taking a row with a null user_id or a
    null amount out of the input leaves the average-transaction view as it
    was. *)
Theorem null_rows_excluded (l1 l2 : Table) (r : Row) :
  (merchant_id r = None ->
     failure_rate (l1 ++ r :: l2) = failure_rate (l1 ++ l2)
     /\ top_merchants (l1 ++ r :: l2) = top_merchants (l1 ++ l2))
  /\ (forall u a, merchant_id r = None -> user_id r = Some u ->
        transaction_amount r = Some a ->
        In (mkAvg (Some u) (Some (mean (user_amounts u (l1 ++ r :: l2)))))
           (avg_txn (l1 ++ r :: l2))
        /\ user_amounts u (l1 ++ r :: l2) = user_amounts u l1 ++ a :: user_amounts u l2)
  /\ (user_id r = None \/ transaction_amount r = None ->
        avg_txn (l1 ++ r :: l2) = avg_txn (l1 ++ l2)).
Proof.
  split; [|split].
  - intros Hm.
    assert (H1 : filter (fun r => isNotNull (merchant_id r)) (l1 ++ r :: l2)
                 = filter (fun r => isNotNull (merchant_id r)) (l1 ++ l2)).
    { apply filter_drop. now rewrite Hm. }
    assert (H2 : filter (fun r => col_eq (BankingAnalysis.status r) "FAILED"
                                  && isNotNull (merchant_id r)) (l1 ++ r :: l2)
                 = filter (fun r => col_eq (BankingAnalysis.status r) "FAILED"
                                    && isNotNull (merchant_id r)) (l1 ++ l2)).
    { apply filter_drop. rewrite Hm. apply andb_false_r. }
    unfold failure_rate, total, failed, top_merchants. now rewrite H1, H2.
  - intros u a _ Hu Ha. split.
    + rewrite avg_txn_closed. apply in_map_iff. exists u. split; [reflexivity|].
      apply user_order_In. exists r. split; [apply in_elt|].
      split; [exact Hu | congruence].
    + unfold user_amounts. rewrite filter_keep.
      * rewrite map_app, non_null_app. cbn [map non_null flat_map]. now rewrite Ha.
      * unfold has_user. now apply key_match_Some_r.
  - intros Hnull. unfold avg_txn. rewrite filter_drop; [reflexivity|].
    destruct Hnull as [H|H]; rewrite H; [apply andb_false_r | reflexivity].
Qed.

(** ** The driver of the analysis *)

(** C6. When the input file exists and the loaded table has no row, [main]
    raises the empty-dataset error ([ValueError] with the message "No data
    found in the input file"); nothing has been shown, no directory has
    been created and no CSV file has been written. *)
Theorem empty_dataset_fails (w : World) :
  input_exists w = true -> read_csv w = [] ->
  snd (main w) = inr no_data
  /\ shown (fst (main w)) = []
  /\ attempted (fst (main w)) = []
  /\ forallb (fun ev => negb (touches_disk ev)) (fst (main w)) = true.
Proof.
  intros Hex Hempty. unfold main. rewrite Hex, Hempty. cbn. repeat split.
Qed.

Lemma empty_dataset_fails_witness :
  snd (main (mkWorld true [] false (fun _ => false))) = inr no_data
  /\ shown (fst (main (mkWorld true [] false (fun _ => false)))) = []
  /\ attempted (fst (main (mkWorld true [] false (fun _ => false)))) = []
  /\ forallb (fun ev => negb (touches_disk ev))
             (fst (main (mkWorld true [] false (fun _ => false)))) = true.
Proof.
  apply (empty_dataset_fails (mkWorld true [] false (fun _ => false))); reflexivity.
Defined.

Ltac find_event := cbn; repeat (first [left; reflexivity | right]).

Ltac run_save w df :=
  unfold save_results, save_block, makedirs, to_csv, print_rate;
  destruct (makedirs_fails w);
  destruct (to_csv_fails w avg_file);
  destruct (to_csv_fails w failure_file);
  destruct (to_csv_fails w top_file);
  destruct (agg_max (map fr_failure_rate (failure_rate df)));
  destruct (agg_avg (map fr_failure_rate (failure_rate df)));
  cbv [bind try_except emit print ret raise fst snd app].

(** The save block never lets an exception out. *)
Lemma save_results_returns (w : World) (df : Table) : snd (save_results w df) = inl tt.
Proof. run_save w df; reflexivity. Qed.

Lemma save_results_shows_nothing (w : World) (df : Table) :
  shown (fst (save_results w df)) = [].
Proof. run_save w df; reflexivity. Qed.

Lemma main_nonempty (w : World) :
  input_exists w = true -> read_csv w <> [] ->
  main w = (report (read_csv w) ++ fst (save_results w (read_csv w)) ++ [SparkStop], inl tt).
Proof.
  intros Hex Hne. unfold main. rewrite Hex.
  pose proof (save_results_returns w (read_csv w)) as Hret.
  destruct (read_csv w) as [|r t] eqn:Hdf; [congruence|].
  cbv zeta. change (List.length (r :: t) =? 0) with false.
  destruct (save_results w (r :: t)) as [l res]. cbn [snd] in Hret. subst res.
  cbv [finally try_except bind emit print show ret raise display report fst snd app].
  reflexivity.
Qed.

Lemma attempted_main (w : World) :
  input_exists w = true -> read_csv w <> [] ->
  attempted (fst (main w)) = attempted (fst (save_results w (read_csv w))).
Proof.
  intros Hex Hne. rewrite (main_nonempty w Hex Hne). cbn [fst].
  unfold attempted. rewrite !flat_map_app. cbn. now rewrite app_nil_r.
Qed.

Lemma shown_main (w : World) :
  input_exists w = true -> read_csv w <> [] ->
  shown (fst (main w)) = shown (report (read_csv w)).
Proof.
  intros Hex Hne. rewrite (main_nonempty w Hex Hne). cbn [fst].
  unfold shown at 1. rewrite !flat_map_app.
  change (flat_map _ (fst (save_results w (read_csv w))))
    with (shown (fst (save_results w (read_csv w)))).
  rewrite save_results_shows_nothing. cbn [flat_map app]. now rewrite app_nil_r.
Qed.

(** C8, as the code has it.  One handler surrounds the whole save block:
    when creating the directory or writing a file fails, the files that
    come after it are not attempted, the ones before it stay written with
    the views computed from the table, the report already on the console
    is the same as without the failure, the note that the analysis
    completed is printed, and [main] returns without an exception. *)
Theorem save_failure_contained (w : World) :
  input_exists w = true -> read_csv w <> [] ->
  snd (main w) = inl tt
  /\ (exists save_log, fst (main w) = report (read_csv w) ++ save_log ++ [SparkStop])
  /\ shown (fst (main w))
     = [ VTop (top_merchants (read_csv w));
         VAvg (limit 10 (orderBy_desc
                 (fun a b => oQ_ltb (avg_transaction a) (avg_transaction b))
                 (avg_txn (read_csv w))));
         VFailure (limit 10 (orderBy_desc
                 (fun a b => Q_ltb (fr_failure_rate a) (fr_failure_rate b))
                 (failure_rate (read_csv w)))) ]
  /\ (makedirs_fails w = true -> attempted (fst (main w)) = [])
  /\ (makedirs_fails w = false -> to_csv_fails w avg_file = true ->
      attempted (fst (main w)) = firstn 1 (result_files (read_csv w)))
  /\ (makedirs_fails w = false -> to_csv_fails w avg_file = false ->
      to_csv_fails w failure_file = true ->
      attempted (fst (main w)) = firstn 2 (result_files (read_csv w)))
  /\ (makedirs_fails w = false -> to_csv_fails w avg_file = false ->
      to_csv_fails w failure_file = false ->
      attempted (fst (main w)) = result_files (read_csv w))
  /\ (makedirs_fails w = true
      \/ (exists f, In f [avg_file; failure_file; top_file] /\ to_csv_fails w f = true) ->
      In success_note (fst (main w))).
Proof.
  intros Hex Hne.
  split; [now rewrite (main_nonempty w Hex Hne)|].
  split; [eexists; now rewrite (main_nonempty w Hex Hne)|].
  split; [now rewrite (shown_main w Hex Hne)|].
  rewrite (attempted_main w Hex Hne).
  assert (Hnote : In success_note (fst (save_results w (read_csv w))) ->
                  In success_note (fst (main w))).
  { intros H. rewrite (main_nonempty w Hex Hne). cbn [fst].
    apply in_or_app. right. apply in_or_app. now left. }
  repeat split.
  - intros H1. unfold save_results, save_block, makedirs. rewrite H1. reflexivity.
  - intros H1 H2. unfold save_results, save_block, makedirs, to_csv.
    rewrite H1, H2. reflexivity.
  - intros H1 H2 H3. unfold save_results, save_block, makedirs, to_csv.
    rewrite H1, H2, H3. reflexivity.
  - intros H1 H2 H3. revert H1 H2 H3. run_save w (read_csv w); intros; try congruence;
      reflexivity.
  - intros H. apply Hnote. clear Hnote.
    unfold save_results, save_block, makedirs, to_csv.
    destruct (makedirs_fails w) eqn:E0; [find_event|].
    destruct (to_csv_fails w avg_file) eqn:E1; [find_event|].
    destruct (to_csv_fails w failure_file) eqn:E2; [find_event|].
    destruct (to_csv_fails w top_file) eqn:E3; [find_event|].
    exfalso. destruct H as [H|[f [Hf H]]]; [discriminate|].
    cbn in Hf. destruct Hf as [<-|[<-|[<-|[]]]]; congruence.
Qed.

(** ** The generator *)

Section GeneratorFacts.
Import TransactionGenerator GeneratorReference.
Variable rnd : Random.

Lemma mem_In (x : UUID) (s : list UUID) : mem x s = true <-> In x s.
Proof.
  unfold mem. rewrite existsb_exists. split.
  - intros [y [Hy E]]. apply N.eqb_eq in E. now subst.
  - intros H. exists x. split; [exact H | apply N.eqb_refl].
Qed.

Lemma consistent_init : consistent rnd init.
Proof.
  unfold consistent, init. cbn. split; [constructor|]. intros x. split; [tauto|].
  intros [i [Hi _]]. lia.
Qed.

(** While fewer identifiers are in use than the source has distinct
    values among its first [m] draws, one of those draws is still to
    come. *)
Lemma draws_remain (g : Generator) (m : nat) :
  consistent rnd g ->
  List.length (used_transaction_ids g) < distinct_draws rnd m ->
  uuid_calls g < m.
Proof.
  intros [_ Hused] Hlt.
  destruct (Nat.lt_ge_cases (uuid_calls g) m) as [H|H]; [exact H|].
  exfalso. unfold distinct_draws in Hlt.
  assert (Hincl : incl (nodup N.eq_dec (map (uuid4 rnd) (seq 0 m)))
                       (used_transaction_ids g)).
  { intros x Hx. apply nodup_In, in_map_iff in Hx. destruct Hx as [i [E Hi]].
    apply in_seq in Hi. apply Hused. exists i. split; [lia | exact E]. }
  pose proof (NoDup_incl_length (NoDup_nodup N.eq_dec _) Hincl) as Hle.
  apply Nat.lt_nge in Hlt. apply Hlt. exact Hle.
Qed.

(** The loop of [generate_unique_transaction_id] ends with an identifier
    that was not in use. *)
Lemma unique_id_found (m fuel : nat) (g : Generator) :
  consistent rnd g ->
  List.length (used_transaction_ids g) < distinct_draws rnd m ->
  m <= fuel + uuid_calls g ->
  exists id g',
    generate_unique_transaction_id rnd fuel g = Ok (id, g')
    /\ ~ In id (used_transaction_ids g)
    /\ used_transaction_ids g' = id :: used_transaction_ids g
    /\ made g' = made g
    /\ consistent rnd g'.
Proof.
  revert g. induction fuel as [|fuel IH]; intros g Hc Hlt Hfuel.
  - pose proof (draws_remain g m Hc Hlt). simpl in Hfuel. lia.
  - cbn [generate_unique_transaction_id].
    destruct (mem (uuid4 rnd (uuid_calls g)) (used_transaction_ids g)) eqn:Hmem;
      cbn [negb].
    + apply mem_In in Hmem.
      destruct (IH (mkGenerator (used_transaction_ids g) (S (uuid_calls g)) (made g)))
        as [id [g' [Hrun [Hfresh [Hused [Hmade Hc']]]]]].
      * destruct Hc as [Hnd Hiff]. split; [exact Hnd|]. cbn. intros x. rewrite Hiff. split.
        -- intros [i [Hi E]]. exists i. split; [lia | exact E].
        -- intros [i [Hi E]]. destruct (Nat.eq_dec i (uuid_calls g)) as [->|Hne].
           ++ apply Hiff. now rewrite <- E.
           ++ exists i. split; [lia | exact E].
      * exact Hlt.
      * cbn. lia.
      * cbn in Hfresh, Hused, Hmade. exists id, g'.
        split; [exact Hrun|]. split; [exact Hfresh|]. split; [exact Hused|].
        split; [exact Hmade | exact Hc'].
    + assert (Hfresh : ~ In (uuid4 rnd (uuid_calls g)) (used_transaction_ids g)).
      { intros H. apply mem_In in H. congruence. }
      eexists _, _. split; [reflexivity|]. cbn. repeat split; try assumption.
      * cbn. constructor; [exact Hfresh | apply Hc].
      * cbn. destruct Hc as [_ Hiff]. intros [<-|Hx].
        -- exists (uuid_calls g). split; [lia | reflexivity].
        -- apply Hiff in Hx. destruct Hx as [i [Hi E]]. exists i. split; [lia | exact E].
      * cbn. destruct Hc as [_ Hiff]. intros [i [Hi E]].
        destruct (Nat.eq_dec i (uuid_calls g)) as [->|Hne]; [now left|].
        right. apply Hiff. exists i. split; [lia | exact E].
Qed.

Lemma generate_transaction_fresh (m fuel : nat) (g : Generator) :
  consistent rnd g ->
  List.length (used_transaction_ids g) < distinct_draws rnd m ->
  m <= fuel ->
  exists t g',
    generate_transaction rnd fuel g = Ok (t, g')
    /\ ~ In (transaction_id t) (used_transaction_ids g)
    /\ used_transaction_ids g' = transaction_id t :: used_transaction_ids g
    /\ consistent rnd g'.
Proof.
  intros Hc Hlt Hfuel.
  destruct (unique_id_found m fuel g Hc Hlt) as [id [g' [Hrun [Hfresh [Hused [_ Hc']]]]]];
    [lia|].
  unfold generate_transaction. rewrite Hrun.
  eexists _, _. split; [reflexivity|]. cbn. repeat split; try assumption.
  - apply Hc'.
  - apply Hc'.
  - apply Hc'.
Qed.

(** The loop of [generate_transactions], from any consistent state. *)
Lemma generate_loop_unique (m fuel k : nat) :
  m <= fuel ->
  forall (acc : list Transaction) (g : Generator),
    consistent rnd g ->
    List.length (used_transaction_ids g) + k <= distinct_draws rnd m ->
    NoDup (map transaction_id acc) ->
    (forall t, In t acc -> In (transaction_id t) (used_transaction_ids g)) ->
    exists txs g',
      generate_loop rnd fuel k acc g = Ok (txs, g')
      /\ List.length txs = List.length acc + k
      /\ NoDup (map transaction_id txs)
      /\ consistent rnd g'.
Proof.
  intros Hfuel. induction k as [|k IH]; intros acc g Hc Hlen Hnd Hacc.
  - exists acc, g. cbn. repeat split; try assumption; try apply Hc. lia.
  - destruct (generate_transaction_fresh m fuel g Hc) as [t [g1 [Hrun [Hfresh [Hused Hc1]]]]];
      [lia | exact Hfuel |].
    cbn [generate_loop]. rewrite Hrun.
    destruct (IH (acc ++ [t]) g1 Hc1) as [txs [g' [Hloop [Hl [Hnd' Hc']]]]].
    + rewrite Hused. simpl. lia.
    + rewrite map_app. simpl.
      apply (Permutation_NoDup (Permutation_cons_append _ _)).
      constructor; [|exact Hnd].
      intros Hin. apply in_map_iff in Hin. destruct Hin as [t' [E Ht']].
      apply Hfresh. rewrite <- E. now apply Hacc.
    + intros t' Ht'. rewrite Hused. apply in_app_or in Ht'.
      destruct Ht' as [Ht'|[<-|[]]]; [right; now apply Hacc | now left].
    + exists txs, g'. rewrite length_app in Hl. simpl in Hl.
      repeat split; try assumption; try apply Hc'. lia.
Qed.

(** Whenever the identifier loop returns, the identifier was not in use
    and is the one added to the set. *)
Lemma unique_id_sound (fuel : nat) :
  forall (g g' : Generator) (id : UUID),
    generate_unique_transaction_id rnd fuel g = Ok (id, g') ->
    ~ In id (used_transaction_ids g)
    /\ used_transaction_ids g' = id :: used_transaction_ids g.
Proof.
  induction fuel as [|fuel IH]; intros g g' id Hrun; [discriminate|].
  cbn [generate_unique_transaction_id] in Hrun.
  destruct (mem (uuid4 rnd (uuid_calls g)) (used_transaction_ids g)) eqn:Hmem;
    cbn [negb] in Hrun.
  - apply IH in Hrun. exact Hrun.
  - injection Hrun as <- <-. cbn. split; [|reflexivity].
    intros H. apply mem_In in H. congruence.
Qed.

Lemma generate_loop_sound (fuel k : nat) :
  forall (acc txs : list Transaction) (g g' : Generator),
    generate_loop rnd fuel k acc g = Ok (txs, g') ->
    NoDup (map transaction_id acc) ->
    (forall t, In t acc -> In (transaction_id t) (used_transaction_ids g)) ->
    List.length txs = List.length acc + k /\ NoDup (map transaction_id txs).
Proof.
  induction k as [|k IH]; intros acc txs g g' Hrun Hnd Hacc.
  - cbn in Hrun. injection Hrun as <- _. split; [lia | exact Hnd].
  - cbn [generate_loop] in Hrun. unfold generate_transaction in Hrun.
    destruct (generate_unique_transaction_id rnd fuel g) as [[id g1]|] eqn:Hid;
      [|discriminate].
    apply unique_id_sound in Hid. destruct Hid as [Hfresh Hused].
    apply IH in Hrun.
    + rewrite length_app in Hrun. simpl in Hrun. split; [lia | apply Hrun].
    + rewrite map_app. cbn [map transaction_id].
      apply (Permutation_NoDup (Permutation_cons_append _ _)).
      constructor; [|exact Hnd].
      intros Hin. apply in_map_iff in Hin. destruct Hin as [t' [E Ht']].
      apply Hfresh. rewrite <- E. now apply Hacc.
    + intros t' Ht'. cbn [used_transaction_ids]. rewrite Hused.
      apply in_app_or in Ht'. destruct Ht' as [Ht'|[<-|[]]].
      * right. now apply Hacc.
      * now left.
Qed.

(** C9. For every n >= 1, whatever a fresh generator returns is a sequence
    of exactly n records whose transaction_id values are pairwise distinct
    (the number of distinct identifiers is n); and it does return as soon
    as the UUID source yields n distinct values: when these occur among its
    first [m] draws, [m] iterations of each identifier loop are enough. *)
Theorem generated_ids_unique (n : Z) :
  (1 <= n)%Z ->
  (forall fuel txs g,
     generate_transactions rnd fuel n init = Ok (txs, g) ->
     List.length txs = Z.to_nat n
     /\ NoDup (map transaction_id txs)
     /\ List.length (nodup N.eq_dec (map transaction_id txs)) = Z.to_nat n)
  /\ (forall m, Z.to_nat n <= distinct_draws rnd m ->
        exists txs g, generate_transactions rnd m n init = Ok (txs, g)).
Proof.
  intros _. split.
  - intros fuel txs g Hrun. unfold generate_transactions in Hrun.
    apply generate_loop_sound in Hrun; [|constructor | intros t []].
    destruct Hrun as [Hlen Hnd]. simpl in Hlen.
    split; [exact Hlen|]. split; [exact Hnd|].
    rewrite (nodup_fixed_point N.eq_dec Hnd), length_map. exact Hlen.
  - intros m Hdraws. unfold generate_transactions.
    destruct (generate_loop_unique m m (Z.to_nat n) (Nat.le_refl m) [] init consistent_init)
      as [txs [g [Hrun _]]].
    + exact Hdraws.
    + constructor.
    + intros t [].
    + now exists txs, g.
Qed.
End GeneratorFacts.

Section ValidateFacts.
Import TransactionGenerator GeneratorReference.
Variables strip lower : string -> string.
Variable int : string -> option Z.

Lemma file_events_app (l l' : list event) :
  file_events (l ++ l') = file_events l ++ file_events l'.
Proof. apply filter_app. Qed.

(** What holds of every way [validate_input] can end, shown by induction
    on the number of console entries still to be read. *)
Lemma validate_input_sound (bound : nat) :
  forall console, List.length console <= bound ->
    file_events (fst (validate_input strip lower int console)) = []
    /\ forall k rest', snd (validate_input strip lower int console) = Return k rest' ->
                       (0 < k)%Z.
Proof.
  induction bound as [|bound IH]; intros console Hlen.
  - destruct console; [|simpl in Hlen; lia]. cbn. split; [reflexivity | discriminate].
  - destruct console as [|[s|] rest]; cbn [validate_input];
      try (cbn; split; [reflexivity | discriminate]).
    assert (Hrest : List.length rest <= bound) by (simpl in Hlen; lia).
    pose proof (IH rest Hrest) as [Hf Hk].
    destruct (is_empty (strip s)).
    { unfold log_then. cbn [fst snd]. rewrite file_events_app, Hf. split; [reflexivity|exact Hk]. }
    destruct (int (strip s)) as [n|].
    2:{ unfold log_then. cbn [fst snd]. rewrite file_events_app, Hf.
        split; [reflexivity|exact Hk]. }
    destruct (n <=? 0)%Z eqn:Hn.
    { unfold log_then. cbn [fst snd]. rewrite file_events_app, Hf. split; [reflexivity|exact Hk]. }
    apply Z.leb_gt in Hn.
    destruct (n >? 1000000)%Z.
    2:{ cbn. split; [reflexivity|]. intros k rest' E. injection E as <- _. exact Hn. }
    destruct rest as [|[c|] rest']; try (cbn; split; [reflexivity | discriminate]).
    assert (Hrest' : List.length rest' <= bound) by (simpl in Hrest; lia).
    pose proof (IH rest' Hrest') as [Hf' Hk'].
    destruct (negb _).
    + unfold log_then. cbn [fst snd]. rewrite file_events_app, Hf'.
      split; [reflexivity|exact Hk'].
    + cbn. split; [reflexivity|]. intros k r E. injection E as <- _. exact Hn.
Qed.

Lemma validate_input_no_file_io (console : list key) :
  file_events (fst (validate_input strip lower int console)) = [].
Proof. apply (validate_input_sound (List.length console) console (Nat.le_refl _)). Qed.

Lemma validate_input_positive (console : list key) (k : Z) (rest : list key) :
  snd (validate_input strip lower int console) = Return k rest -> (0 < k)%Z.
Proof. apply (validate_input_sound (List.length console) console (Nat.le_refl _)). Qed.

(** C7, as the code has it.  A record count n <= 0 raises nothing:
    [validate_input] prints "Please enter a positive number." and asks
    again, whatever it returns is positive, and it touches no file;
    [generate_transactions] called with such an n returns the empty
    sequence; and [main] performs file operations only after
    [validate_input] has returned a positive count. *)
Theorem nonpositive_count_asked_again (s : string) (n : Z) (rest : list key) :
  is_empty (strip s) = false -> int (strip s) = Some n -> (n <= 0)%Z ->
  validate_input strip lower int (Line s :: rest)
  = log_then [Prompt ask; Out "Please enter a positive number."]
             (validate_input strip lower int rest)
  /\ (forall console k rest',
        snd (validate_input strip lower int console) = Return k rest' -> (0 < k)%Z)
  /\ (forall console, file_events (fst (validate_input strip lower int console)) = [])
  /\ (forall rnd fuel g, generate_transactions rnd fuel n g = Ok ([], g))
  /\ (forall dirname fs rnd fuel console log code,
        main strip lower int dirname fs rnd fuel console = Ok (log, code) ->
        file_events log <> [] ->
        exists k rest', snd (validate_input strip lower int console) = Return k rest'
                        /\ (0 < k)%Z).
Proof.
  intros Hne Hint Hn. split; [|split; [|split; [|split]]].
  - cbn [validate_input]. rewrite Hne, Hint.
    apply Z.leb_le in Hn. now rewrite Hn.
  - apply validate_input_positive.
  - apply validate_input_no_file_io.
  - intros rnd fuel g. unfold generate_transactions.
    replace (Z.to_nat n) with 0 by lia. reflexivity.
  - intros dirname fs rnd fuel console log code Hmain Hfiles.
    unfold main in Hmain.
    pose proof (validate_input_no_file_io console) as Hnone.
    pose proof (validate_input_positive console) as Hpos.
    destruct (validate_input strip lower int console) as [l0 v].
    cbn [fst snd] in *.
    destruct v as [k rest'|code'|e].
    + exists k, rest'. split; [reflexivity | now apply (Hpos k rest')].
    + exfalso. apply Hfiles. injection Hmain as <- _.
      exact Hnone.
    + exfalso. apply Hfiles. unfold failure in Hmain. injection Hmain as <- _.
      change (file_events (l0 ++ [Out "An error occurred"]) = []).
      now rewrite file_events_app, Hnone.
Qed.
End ValidateFacts.

(** ** The properties on concrete inputs *)

Lemma failure_rate_view_correct_witness :
  In m1_failure (failure_rate scenario)
  /\ exists m, fr_merchant_id m1_failure = Some m
               /\ total_txns m1_failure = merchant_count m scenario
               /\ failed_txns m1_failure = merchant_failed m scenario
               /\ fr_failure_rate m1_failure
                  = (inject_Z (Z.of_nat (failed_txns m1_failure))
                     / inject_Z (Z.of_nat (total_txns m1_failure)))%Q.
Proof.
  split; [left; reflexivity|].
  apply (proj1 (proj2 (proj2 (failure_rate_view_correct scenario))) m1_failure).
  left; reflexivity.
Defined.

Lemma avg_txn_correct_witness :
  In u1_avg (avg_txn scenario)
  /\ exists u, au_user_id u1_avg = Some u
               /\ user_amounts u scenario <> []
               /\ avg_transaction u1_avg = Some (mean (user_amounts u scenario)).
Proof.
  split; [left; reflexivity|].
  apply (proj1 (proj2 (proj2 (avg_txn_correct scenario))) u1_avg).
  left; reflexivity.
Defined.

Lemma top_merchants_correct_witness :
  In m1_count (top_merchants scenario)
  /\ exists m, cn_merchant_id m1_count = Some m
               /\ In m (merchants scenario)
               /\ cn_count m1_count = merchant_count m scenario.
Proof.
  split; [left; reflexivity|].
  apply (proj1 (proj2 (top_merchants_correct scenario)) m1_count).
  left; reflexivity.
Defined.

Lemma failure_rate_bounded_witness :
  In m1_failure (failure_rate scenario)
  /\ (0 <= fr_failure_rate m1_failure /\ fr_failure_rate m1_failure <= 1)%Q.
Proof.
  split; [left; reflexivity|].
  apply (proj1 (failure_rate_bounded scenario) m1_failure).
  left; reflexivity.
Defined.

Lemma failure_rate_invariant_witness :
  In m1_failure (failure_rate scenario)
  /\ 0 <= failed_txns m1_failure
  /\ failed_txns m1_failure <= total_txns m1_failure
  /\ 1 <= total_txns m1_failure.
Proof.
  split; [left; reflexivity|].
  apply (proj1 (proj2 (failure_rate_invariant scenario)) m1_failure).
  left; reflexivity.
Defined.

Lemma null_rows_excluded_witness :
  merchant_id no_merchant = None
  /\ user_id no_merchant = Some "U1"%string
  /\ transaction_amount no_merchant = Some 25%Q
  /\ failure_rate ([] ++ no_merchant :: scenario) = failure_rate ([] ++ scenario)
  /\ top_merchants ([] ++ no_merchant :: scenario) = top_merchants ([] ++ scenario)
  /\ user_amounts "U1" ([] ++ no_merchant :: scenario)
     = user_amounts "U1" [] ++ 25%Q :: user_amounts "U1" scenario
  /\ user_id no_user = None
  /\ avg_txn ([] ++ no_user :: scenario) = avg_txn ([] ++ scenario).
Proof.
  split; [reflexivity|]. split; [reflexivity|]. split; [reflexivity|].
  split; [apply (proj1 (null_rows_excluded [] scenario no_merchant) eq_refl)|].
  split; [apply (proj1 (null_rows_excluded [] scenario no_merchant) eq_refl)|].
  split; [apply (proj1 (proj2 (null_rows_excluded [] scenario no_merchant))
                   "U1"%string 25%Q eq_refl eq_refl eq_refl)|].
  split; [reflexivity|].
  apply (proj2 (proj2 (null_rows_excluded [] scenario no_user))). left; reflexivity.
Defined.

(** On a world where only the first file cannot be written, the two other
    files, which could be written, are never attempted. *)
Lemma save_failure_skips_later_files :
  to_csv_fails first_write_fails failure_file = false
  /\ to_csv_fails first_write_fails top_file = false
  /\ map fst (attempted (fst (main first_write_fails))) = [avg_file]
  /\ ~ In failure_file (map fst (attempted (fst (main first_write_fails))))
  /\ ~ In top_file (map fst (attempted (fst (main first_write_fails)))).
Proof.
  split; [reflexivity|]. split; [reflexivity|]. split; [reflexivity|].
  split; intros [H|[]]; discriminate H.
Qed.

Lemma save_failure_contained_witness :
  input_exists first_write_fails = true
  /\ read_csv first_write_fails <> []
  /\ snd (main first_write_fails) = inl tt
  /\ In success_note (fst (main first_write_fails)).
Proof.
  assert (Hne : read_csv first_write_fails <> []) by discriminate.
  split; [reflexivity|]. split; [exact Hne|].
  split; [apply (proj1 (save_failure_contained first_write_fails eq_refl Hne))|].
  apply (save_failure_contained first_write_fails eq_refl Hne).
  right. exists avg_file. split; [left; reflexivity | reflexivity].
Defined.

Section GeneratorExamples.
Import TransactionGenerator GeneratorReference.

Lemma generated_ids_unique_witness :
  (1 <= 3)%Z
  /\ Z.to_nat 3 <= distinct_draws counting 3
  /\ exists txs g, generate_transactions counting 3 3 init = Ok (txs, g).
Proof.
  split; [lia|]. split; [vm_compute; lia|].
  apply (proj2 (generated_ids_unique counting 3 ltac:(lia)) 3). vm_compute; lia.
Defined.

(** A source that repeats one UUID never lets the second identifier
    loop end. *)
Lemma stuck_loop (fuel calls k : nat) :
  generate_unique_transaction_id stuck fuel (mkGenerator [7%N] calls k) = OutOfFuel.
Proof.
  revert calls. induction fuel as [|fuel IH]; intros calls; [reflexivity|].
  cbn. apply IH.
Qed.

Lemma stuck_first (fuel : nat) :
  exists t, generate_transaction stuck (S fuel) init = Ok (t, mkGenerator [7%N] 1 1).
Proof. eexists. reflexivity. Qed.

Lemma stuck_source_never_returns (fuel : nat) :
  generate_transactions stuck fuel 2 init = OutOfFuel.
Proof.
  destruct fuel as [|fuel]; [reflexivity|].
  unfold generate_transactions. change (Z.to_nat 2) with 2. cbn [generate_loop].
  destruct (stuck_first fuel) as [t ->].
  unfold generate_transaction. now rewrite stuck_loop.
Qed.

(** A request for 0 records raises nothing: [generate_transactions]
    returns the empty list, and [main] asks again, then generates and
    writes the 2 records asked for next and exits with status 0. *)
Lemma zero_count_not_rejected :
  generate_transactions counting 1 0 init = Ok ([], init)
  /\ snd (validate_input unchanged unchanged decimal_int [Line "0"; Line "2"])
     = Return 2 []
  /\ exists log, sample_main counting 2 [Line "0"; Line "2"] = Ok (log, 0%Z)
                 /\ file_events log <> [].
Proof.
  split; [reflexivity|]. split; [reflexivity|].
  eexists. split; [vm_compute; reflexivity|]. discriminate.
Qed.

Lemma nonpositive_count_asked_again_witness :
  is_empty (unchanged "0") = false
  /\ decimal_int (unchanged "0") = Some 0%Z
  /\ (0 <= 0)%Z
  /\ validate_input unchanged unchanged decimal_int [Line "0"; Line "2"]
     = log_then [Prompt ask; Out "Please enter a positive number."]
                (validate_input unchanged unchanged decimal_int [Line "2"]).
Proof.
  split; [reflexivity|]. split; [reflexivity|]. split; [lia|].
  apply (nonpositive_count_asked_again unchanged unchanged decimal_int
           "0" 0 [Line "2"] eq_refl eq_refl (Z.le_refl 0)).
Defined.
End GeneratorExamples.


(** * Further properties of the analysis driver *)

Lemma main_missing_file (w : World) :
  input_exists w = false ->
  main w = ([ Print "Looking for input file";
              PrintError "Error occurred during analysis: " not_found;
              SparkStop ],
            inr not_found).
Proof. intros Hex. unfold main. rewrite Hex. reflexivity. Qed.

(** X1. When transactions.csv does not exist, [main] raises
    FileNotFoundError whatever the table would have been: nothing is shown,
    no directory is created and no file is written, and the error is the
    one thing reported. *)
Theorem missing_input_file (w : World) :
  input_exists w = false ->
  snd (main w) = inr not_found
  /\ shown (fst (main w)) = []
  /\ attempted (fst (main w)) = []
  /\ forallb (fun ev => negb (touches_disk ev)) (fst (main w)) = true
  /\ errors (fst (main w)) = [("Error occurred during analysis: "%string, not_found)].
Proof. intros Hex. rewrite (main_missing_file w Hex). repeat split. Qed.

Lemma missing_input_file_witness :
  input_exists missing_file = false
  /\ snd (main missing_file) = inr not_found.
Proof.
  split; [reflexivity|]. exact (proj1 (missing_input_file missing_file eq_refl)).
Defined.

Lemma main_empty_table (w : World) :
  input_exists w = true -> read_csv w = [] ->
  main w = ([ Print "Looking for input file"; Print "Reading transaction data...";
              PrintError "Error occurred during analysis: " no_data; SparkStop ],
            inr no_data).
Proof. intros Hex Hdf. unfold main. rewrite Hex, Hdf. reflexivity. Qed.


Lemma save_results_never_stops (w : World) (df : Table) :
  ~ In SparkStop (fst (save_results w df)).
Proof. run_save w df; cbn; intuition discriminate. Qed.

Lemma report_never_stops (df : Table) : ~ In SparkStop (report df).
Proof. cbn. intuition discriminate. Qed.

(** X3. On every path, also when it raises, [main] stops the Spark session
    exactly once and as the last thing it does. *)
Theorem spark_always_stopped (w : World) :
  exists l, fst (main w) = l ++ [SparkStop] /\ ~ In SparkStop l.
Proof.
  destruct (input_exists w) eqn:Hex.
  - destruct (read_csv w) as [|r t] eqn:Hdf.
    + rewrite (main_empty_table w Hex Hdf). eexists [_; _; _]. split; [reflexivity|].
      cbn. intuition discriminate.
    + assert (Hne : read_csv w <> []) by (rewrite Hdf; discriminate).
      rewrite (main_nonempty w Hex Hne). cbn [fst].
      exists (report (read_csv w) ++ fst (save_results w (read_csv w))).
      split; [now rewrite app_assoc|].
      intros Hin. apply in_app_or in Hin. destruct Hin as [Hin|Hin].
      * now apply (report_never_stops (read_csv w)).
      * now apply (save_results_never_stops w (read_csv w)).
  - rewrite (main_missing_file w Hex). eexists [_; _]. split; [reflexivity|].
    cbn. intuition discriminate.
Qed.

Lemma failure_rate_length (df : Table) :
  List.length (failure_rate df) = List.length (merchants df).
Proof. now rewrite failure_rate_closed, length_map, merchant_order_length. Qed.

Lemma agg_avg_nonempty (col : list Q) : col <> [] -> exists av, agg_avg col = Some av.
Proof.
  intros Hne. unfold agg_avg, avg.
  destruct col as [|x t]; [congruence|]. cbn. eexists. reflexivity.
Qed.

Lemma agg_max_nonempty (col : list Q) : col <> [] -> exists hi, agg_max col = Some hi.
Proof. intros Hne. destruct col as [|x t]; [congruence|]. cbn. eexists. reflexivity. Qed.

Lemma attempted_report (df : Table) : attempted (report df) = [].
Proof. reflexivity. Qed.

Lemma errors_report (df : Table) : errors (report df) = [].
Proof. reflexivity. Qed.

(** The log of the save block when no file operation fails. *)
Lemma save_block_disk_ok (w : World) (df : Table) :
  makedirs_fails w = false ->
  to_csv_fails w avg_file = false ->
  to_csv_fails w failure_file = false ->
  to_csv_fails w top_file = false ->
  attempted (fst (save_results w df)) = result_files df
  /\ In (Print "SUCCESS! All results saved") (fst (save_results w df))
  /\ In (PrintCount "Total users analyzed: " (List.length (avg_txn df)))
        (fst (save_results w df))
  /\ In (PrintCount "Total merchants analyzed: " (List.length (failure_rate df)))
        (fst (save_results w df)).
Proof.
  intros H0 H1 H2 H3.
  unfold save_results, save_block, makedirs, to_csv, print_rate.
  rewrite H0, H1, H2, H3.
  destruct (agg_max (map fr_failure_rate (failure_rate df)));
    destruct (agg_avg (map fr_failure_rate (failure_rate df)));
    (split; [reflexivity|]); repeat split; find_event.
Qed.

Lemma written_all (w : World) (df : Table) :
  to_csv_fails w avg_file = false ->
  to_csv_fails w failure_file = false ->
  to_csv_fails w top_file = false ->
  filter (fun fv => negb (to_csv_fails w (fst fv))) (result_files df) = result_files df.
Proof.
  intros H1 H2 H3. unfold result_files. cbn [filter fst]. now rewrite H1, H2, H3.
Qed.

(** X4. When the disk does not fail and the table has at least one
    non-null merchant_id, the three result files are written, in the fixed
    order and with the views computed from the table, no error is reported,
    and the summary with the numbers of users and merchants and the highest
    and average failure rate is printed. *)
Theorem all_results_saved (w : World) :
  input_exists w = true ->
  merchants (read_csv w) <> [] ->
  makedirs_fails w = false ->
  to_csv_fails w avg_file = false ->
  to_csv_fails w failure_file = false ->
  to_csv_fails w top_file = false ->
  written w (fst (main w)) = result_files (read_csv w)
  /\ errors (fst (main w)) = []
  /\ In (Print "SUCCESS! All results saved") (fst (main w))
  /\ In (PrintCount "Total users analyzed: " (List.length (avg_txn (read_csv w))))
        (fst (main w))
  /\ In (PrintCount "Total merchants analyzed: " (List.length (merchants (read_csv w))))
        (fst (main w))
  /\ exists hi av,
       agg_max (map fr_failure_rate (failure_rate (read_csv w))) = Some hi
       /\ agg_avg (map fr_failure_rate (failure_rate (read_csv w))) = Some av
       /\ In (PrintRate "Highest failure rate: " hi) (fst (main w))
       /\ In (PrintRate "Average failure rate: " av) (fst (main w)).
Proof.
  intros Hex Hm H0 H1 H2 H3.
  assert (Hne : read_csv w <> []).
  { intros Hdf. apply Hm. now rewrite Hdf. }
  assert (Hcol : map fr_failure_rate (failure_rate (read_csv w)) <> []).
  { intros Hnil. apply Hm. apply length_zero_iff_nil.
    rewrite <- failure_rate_length, <- (length_map fr_failure_rate), Hnil. reflexivity. }
  destruct (agg_max_nonempty _ Hcol) as [hi Hhi].
  destruct (agg_avg_nonempty _ Hcol) as [av Hav].
  destruct (save_block_disk_ok w (read_csv w) H0 H1 H2 H3) as [Hatt [Hs [Hu Hc]]].
  assert (Hin : forall ev, In ev (fst (save_results w (read_csv w))) -> In ev (fst (main w))).
  { intros ev Hev. rewrite (main_nonempty w Hex Hne). cbn [fst].
    apply in_or_app. right. apply in_or_app. now left. }
  split; [|split; [|split; [|split; [|split]]]].
  - unfold written. rewrite (attempted_main w Hex Hne), Hatt. now apply written_all.
  - rewrite (main_nonempty w Hex Hne). cbn [fst]. unfold errors.
    rewrite !flat_map_app. change (flat_map _ (report (read_csv w))) with (@nil (string * BankingAnalysis.exn)).
    cbn [app flat_map]. rewrite app_nil_r.
    unfold save_results, save_block, makedirs, to_csv, print_rate.
    rewrite H0, H1, H2, H3, Hhi, Hav. reflexivity.
  - now apply Hin.
  - now apply Hin.
  - apply Hin. now rewrite <- failure_rate_length.
  - exists hi, av. split; [exact Hhi|]. split; [exact Hav|].
    split; apply Hin; unfold save_results, save_block, makedirs, to_csv, print_rate;
      rewrite H0, H1, H2, H3, Hhi, Hav; find_event.
Qed.

Lemma all_results_saved_witness :
  input_exists sound_disk = true
  /\ merchants (read_csv sound_disk) <> []
  /\ written sound_disk (fst (main sound_disk)) = result_files (read_csv sound_disk).
Proof.
  assert (Hm : merchants (read_csv sound_disk) <> []) by discriminate.
  split; [reflexivity|]. split; [exact Hm|].
  exact (proj1 (all_results_saved sound_disk eq_refl Hm eq_refl eq_refl eq_refl eq_refl)).
Defined.

Lemma failure_rate_without_merchants (df : Table) :
  (forall r, In r df -> merchant_id r = None) -> failure_rate df = [] /\ top_merchants df = [].
Proof.
  intros Hnull.
  assert (Hf : filter (fun r => isNotNull (merchant_id r)) df = []).
  { apply filter_none. intros r Hr. now rewrite (Hnull r Hr). }
  assert (Ho : merchant_order df = []).
  { unfold merchant_order. now rewrite Hf. }
  rewrite failure_rate_closed, top_merchants_closed, Ho. split; reflexivity.
Qed.

(** X5. On a non-empty table in which no row has a merchant_id, with a disk
    that does not fail, the three result files are written (the two
    merchant views empty) and the success line is printed; then formatting
    the highest failure rate of the empty view raises TypeError inside the
    save block, so that "Could not save CSV files" is reported although
    every file was saved, and [main] returns normally. *)
Theorem summary_fails_without_merchants (w : World) :
  input_exists w = true ->
  read_csv w <> [] ->
  (forall r, In r (read_csv w) -> merchant_id r = None) ->
  makedirs_fails w = false ->
  to_csv_fails w avg_file = false ->
  to_csv_fails w failure_file = false ->
  to_csv_fails w top_file = false ->
  written w (fst (main w))
  = [ (avg_file, VAvg (avg_txn (read_csv w))); (failure_file, VFailure []);
      (top_file, VTop []) ]
  /\ In (Print "SUCCESS! All results saved") (fst (main w))
  /\ errors (fst (main w)) = [("Could not save CSV files: "%string, no_format)]
  /\ In success_note (fst (main w))
  /\ snd (main w) = inl tt.
Proof.
  intros Hex Hne Hnull H0 H1 H2 H3.
  destruct (failure_rate_without_merchants (read_csv w) Hnull) as [Hfr Htop].
  destruct (save_block_disk_ok w (read_csv w) H0 H1 H2 H3) as [Hatt [Hs _]].
  assert (Hlog : fst (main w)
                 = report (read_csv w) ++ fst (save_results w (read_csv w)) ++ [SparkStop]).
  { now rewrite (main_nonempty w Hex Hne). }
  split; [|split; [|split; [|split]]].
  - unfold written. rewrite (attempted_main w Hex Hne), Hatt, written_all by assumption.
    unfold result_files. now rewrite Hfr, Htop.
  - rewrite Hlog. apply in_or_app. right. apply in_or_app. now left.
  - rewrite Hlog. unfold errors. rewrite !flat_map_app.
    change (flat_map _ (report (read_csv w))) with (@nil (string * BankingAnalysis.exn)).
    cbn [app flat_map]. rewrite app_nil_r.
    unfold save_results, save_block, makedirs, to_csv, print_rate.
    rewrite H0, H1, H2, H3, Hfr. reflexivity.
  - rewrite Hlog. apply in_or_app. right. apply in_or_app. left.
    unfold save_results, save_block, makedirs, to_csv, print_rate.
    rewrite H0, H1, H2, H3, Hfr. find_event.
  - now rewrite (main_nonempty w Hex Hne).
Qed.

Lemma summary_fails_without_merchants_witness :
  input_exists merchantless = true
  /\ read_csv merchantless <> []
  /\ errors (fst (main merchantless)) = [("Could not save CSV files: "%string, no_format)].
Proof.
  assert (Hne : read_csv merchantless <> []) by discriminate.
  assert (Hnull : forall r, In r (read_csv merchantless) -> merchant_id r = None).
  { intros r [<-|[]]. reflexivity. }
  split; [reflexivity|]. split; [exact Hne|].
  exact (proj1 (proj2 (proj2 (summary_fails_without_merchants merchantless eq_refl Hne Hnull
                                eq_refl eq_refl eq_refl eq_refl)))).
Defined.

(** * Further properties of the views *)

Lemma sorted_app_inv {R} (ge : R -> R -> Prop) (l1 l2 : list R) :
  StronglySorted ge (l1 ++ l2) -> forall a b, In a l1 -> In b l2 -> ge a b.
Proof.
  induction l1 as [|x t IH]; intros Hs a b Ha Hb; [destruct Ha|].
  cbn in Hs. inversion Hs as [|? ? Ht Hall]; subst.
  destruct Ha as [<-|Ha].
  - rewrite Forall_forall in Hall. apply Hall. apply in_or_app. now right.
  - now apply IH.
Qed.

Lemma NoDup_limit {R} (n : nat) (l : list R) : NoDup l -> NoDup (limit n l).
Proof.
  intros Hnd. unfold limit. rewrite <- (firstn_skipn n l) in Hnd.
  now apply NoDup_app_remove_r in Hnd.
Qed.

Lemma sorted_counts_keys (df : Table) :
  NoDup (map cn_merchant_id
             (orderBy_desc count_ltb (map (count_row df) (merchant_order df)))).
Proof.
  apply (Permutation_NoDup (l := map Some (merchant_order df))).
  - apply Permutation_sym.
    eapply Permutation_trans; [apply Permutation_map, orderBy_desc_perm|].
    rewrite map_map. apply Permutation_refl.
  - apply map_Some_NoDup, merchant_order_NoDup.
Qed.

(** X6. The top-merchants view holds the highest counts: a merchant of the
    table that has no row in the view has at most as many rows as every
    merchant shown. *)
Theorem top_merchants_dominate (df : Table) (m : string) (row : CountRow) :
  In m (merchants df) ->
  (forall row', In row' (top_merchants df) -> cn_merchant_id row' <> Some m) ->
  In row (top_merchants df) ->
  merchant_count m df <= cn_count row.
Proof.
  intros Hm Hout Hrow. rewrite top_merchants_closed in Hout, Hrow.
  set (s := orderBy_desc count_ltb (map (count_row df) (merchant_order df))) in *.
  assert (Hs : StronglySorted (fun a b => cn_count b <= cn_count a)
                              (firstn 5 s ++ skipn 5 s)).
  { rewrite firstn_skipn. apply orderBy_desc_sorted. }
  assert (Hin : In (count_row df m) (firstn 5 s ++ skipn 5 s)).
  { rewrite firstn_skipn. apply orderBy_desc_In. apply in_map.
    apply merchant_order_In. now apply merchants_In. }
  apply in_app_or in Hin. destruct Hin as [Hin|Hin].
  - exfalso. apply (Hout _ Hin). reflexivity.
  - apply (sorted_app_inv _ _ _ Hs row (count_row df m) Hrow Hin).
Qed.

Lemma top_merchants_dominate_witness :
  In "F"%string (merchants six_merchants)
  /\ In (mkCount (Some "A"%string) 2) (top_merchants six_merchants)
  /\ merchant_count "F" six_merchants <= 2.
Proof.
  assert (Hm : In "F"%string (merchants six_merchants)) by (vm_compute; tauto).
  assert (Hrow : In (mkCount (Some "A"%string) 2) (top_merchants six_merchants))
    by (left; reflexivity).
  split; [exact Hm|]. split; [exact Hrow|].
  apply (top_merchants_dominate six_merchants "F"%string (mkCount (Some "A"%string) 2) Hm);
    [|exact Hrow].
  intros row' Hrow' E. vm_compute in Hrow'.
  destruct Hrow' as [<-|[<-|[<-|[<-|[<-|[]]]]]]; discriminate E.
Defined.

(** X7. The top-merchants view never lists a merchant twice, and each of
    its rows agrees with the failure-rate view: the same merchant has a row
    there whose total_txns is the txn_count shown here. *)
Theorem top_merchants_consistent (df : Table) :
  NoDup (map cn_merchant_id (top_merchants df))
  /\ forall row, In row (top_merchants df) ->
       exists frow, In frow (failure_rate df)
                    /\ fr_merchant_id frow = cn_merchant_id row
                    /\ total_txns frow = cn_count row.
Proof.
  split.
  - rewrite top_merchants_closed. unfold limit. rewrite <- firstn_map.
    apply (NoDup_limit 5). apply sorted_counts_keys.
  - intros row Hrow. rewrite top_merchants_closed in Hrow.
    apply limit_In, orderBy_desc_In, in_map_iff in Hrow.
    destruct Hrow as [m [<- Hm]]. exists (failure_row df m).
    split; [|split; reflexivity].
    apply failure_rate_rows. now exists m.
Qed.

Lemma top_merchants_consistent_witness :
  In m1_count (top_merchants scenario)
  /\ exists frow, In frow (failure_rate scenario)
                  /\ fr_merchant_id frow = cn_merchant_id m1_count
                  /\ total_txns frow = cn_count m1_count.
Proof.
  split; [left; reflexivity|].
  apply (proj2 (top_merchants_consistent scenario) m1_count). left; reflexivity.
Defined.

Section SumFacts.
Context {K : Type} (dec : forall a b : K, {a = b} + {a <> b}).

(** A sum over a duplicate-free list only depends on the keys where the
    summand is not zero. *)
Lemma sum_support (f : K -> nat) (small : list K) :
  NoDup small ->
  forall big, NoDup big -> incl small big ->
    (forall k, In k big -> ~ In k small -> f k = 0) ->
    list_sum (map f big) = list_sum (map f small).
Proof.
  induction 1 as [|x t Hx Ht IH]; intros big Hbig Hincl Hzero.
  - cbn. induction big as [|y u IHu]; [reflexivity|].
    cbn. rewrite (Hzero y); [|now left | tauto].
    apply IHu.
    + now inversion Hbig.
    + intros k Hk. destruct Hk.
    + intros k Hk _. apply Hzero; [now right | tauto].
  - rewrite (sum_remove dec f x big Hbig).
    destruct (in_dec dec x big) as [_|Hn]; [|exfalso; apply Hn, Hincl; now left].
    cbn. f_equal. apply IH.
    + now apply NoDup_remove_all.
    + intros k Hk. apply in_in_remove; [congruence | apply Hincl; now right].
    + intros k Hk Hnk. apply in_remove in Hk. destruct Hk as [Hk Hne].
      apply Hzero; [exact Hk|]. intros [E|Hin]; [congruence | contradiction].
Qed.
End SumFacts.

Lemma merchant_counts_sum (df : Table) :
  list_sum (map (fun m => merchant_count m df) (merchant_order df))
  = List.length (filter (fun r => isNotNull (merchant_id r)) df).
Proof.
  rewrite <- (group_sizes_sum key_eq_dec merchant_id
                (filter (fun r => isNotNull (merchant_id r)) df)).
  rewrite <- merchant_order_keys, map_map. f_equal.
  apply map_ext. intros m. symmetry. apply group_count_total.
Qed.

Lemma merchant_failed_as_count (m : string) (df : Table) :
  merchant_failed m df = merchant_count m (filter is_failed df).
Proof.
  unfold merchant_failed, merchant_count. rewrite filter_filter. f_equal.
  apply filter_ext. intros r. apply andb_comm.
Qed.

(** X8. The failed_txns of all rows of the failure-rate view add up to the
    number of input rows that have status FAILED and a non-null
    merchant_id. *)
Theorem failed_counts_sum (df : Table) :
  list_sum (map failed_txns (failure_rate df)) = failed_rows df.
Proof.
  rewrite failure_rate_closed, map_map. cbn [failure_row failed_txns].
  rewrite (map_ext _ (fun m => merchant_count m (filter is_failed df)))
    by (intros m; apply merchant_failed_as_count).
  rewrite (sum_support string_dec _ (merchant_order (filter is_failed df))).
  - rewrite merchant_counts_sum. unfold failed_rows. rewrite filter_filter.
    f_equal. apply filter_ext. intros r. apply andb_comm.
  - apply merchant_order_NoDup.
  - apply merchant_order_NoDup.
  - intros m Hm. apply merchant_order_In in Hm. destruct Hm as [r [Hr E]].
    apply merchant_order_In. exists r. apply filter_In in Hr. tauto.
  - intros m _ Hout. unfold merchant_count.
    destruct (filter (has_merchant m) (filter is_failed df)) as [|r t] eqn:Hf;
      [reflexivity|].
    exfalso. apply Hout. apply merchant_order_In. exists r.
    assert (Hr : In r (filter (has_merchant m) (filter is_failed df)))
      by (rewrite Hf; now left).
    apply filter_In in Hr. destruct Hr as [Hr Hm].
    split; [exact Hr|]. unfold has_merchant in Hm. now apply key_match_Some_r in Hm.
Qed.

Lemma filter_length_perm {A} (p : A -> bool) (l l' : list A) :
  Permutation l l' -> List.length (filter p l) = List.length (filter p l').
Proof.
  induction 1 as [|x l l' _ IH|x y l|l l' l'' _ IH1 _ IH2]; cbn.
  - reflexivity.
  - destruct (p x); cbn; now rewrite IH.
  - destruct (p x), (p y); reflexivity.
  - now rewrite IH1.
Qed.

(** X9. The failure-rate view does not depend on the order of the input
    rows: reordering the table only reorders the rows of the view. *)
Theorem failure_rate_order_independent (df df' : Table) :
  Permutation df df' -> Permutation (failure_rate df) (failure_rate df').
Proof.
  intros Hperm. rewrite !failure_rate_closed.
  rewrite (map_ext (failure_row df) (failure_row df')).
  - apply Permutation_map. apply NoDup_Permutation; try apply merchant_order_NoDup.
    intros m. rewrite !merchant_order_In. split; intros [r [Hr E]]; exists r; split; trivial.
    + now apply (Permutation_in _ Hperm).
    + now apply (Permutation_in _ (Permutation_sym Hperm)).
  - intros m. unfold failure_row, merchant_count, merchant_failed.
    now rewrite (filter_length_perm _ _ _ Hperm),
                (filter_length_perm (fun r => has_merchant m r && is_failed r) _ _ Hperm).
Qed.

Lemma failure_rate_order_independent_witness :
  Permutation scenario (rev scenario)
  /\ Permutation (failure_rate scenario) (failure_rate (rev scenario)).
Proof.
  split; [apply Permutation_rev|].
  apply (failure_rate_order_independent scenario (rev scenario)), Permutation_rev.
Defined.


(** ** Averages and rates *)






(** ** The rankings on the console *)

Section RankFacts.
Context {R : Type} (ltb : R -> R -> bool).
Hypothesis ltb_false_trans :
  forall a b c, ltb a b = false -> ltb b c = false -> ltb a c = false.
Hypothesis ltb_asym : forall a b, ltb a b = true -> ltb b a = false.

Lemma insert_desc_ranked (x : R) (l : list R) :
  StronglySorted (fun a b => ltb a b = false) l ->
  StronglySorted (fun a b => ltb a b = false) (insert_desc ltb x l).
Proof.
  induction 1 as [|y t Ht IH Hy]; cbn.
  - constructor; constructor.
  - destruct (ltb x y) eqn:E.
    + constructor; [exact IH|].
      rewrite Forall_forall in *. intros z Hz.
      apply (Permutation_in _ (insert_desc_perm ltb x t)) in Hz.
      destruct Hz as [<-|Hz]; [now apply ltb_asym | now apply Hy].
    + constructor; [now constructor|].
      constructor; [exact E|].
      rewrite Forall_forall in *. intros z Hz.
      apply (ltb_false_trans x y z E). now apply Hy.
Qed.

Lemma orderBy_desc_ranked (l : list R) :
  StronglySorted (fun a b => ltb a b = false) (orderBy_desc ltb l).
Proof.
  induction l as [|x t IH]; cbn; [constructor | now apply insert_desc_ranked].
Qed.
End RankFacts.

Lemma Q_ltb_false (x y : Q) : Q_ltb x y = false <-> (y <= x)%Q.
Proof.
  unfold Q_ltb. rewrite negb_false_iff. apply Qle_bool_iff.
Qed.

Lemma Q_ltb_true (x y : Q) : Q_ltb x y = true <-> (x < y)%Q.
Proof.
  unfold Q_ltb. rewrite negb_true_iff. split.
  - intros H. apply Qnot_le_lt. intros Hle. apply Qle_bool_iff in Hle. congruence.
  - intros H. destruct (Qle_bool y x) eqn:E; [|reflexivity].
    apply Qle_bool_iff in E. exfalso. now apply (Qlt_not_le _ _ H).
Qed.

Lemma oQ_ltb_false (a b : AvgRow) :
  oQ_ltb (avg_transaction a) (avg_transaction b) = false <-> avg_ge a b.
Proof.
  unfold avg_ge, oQ_ltb.
  destruct (avg_transaction a) as [x|], (avg_transaction b) as [y|].
  - apply Q_ltb_false.
  - tauto.
  - split; [discriminate | tauto].
  - tauto.
Qed.

Lemma sorted_weaken {R} (P Q' : R -> R -> Prop) (l : list R) :
  (forall a b, P a b -> Q' a b) -> StronglySorted P l -> StronglySorted Q' l.
Proof.
  intros Himp. induction 1 as [|x t Ht IH Hx]; constructor; [exact IH|].
  rewrite Forall_forall in *. intros y Hy. apply Himp. now apply Hx.
Qed.

(** X11. The two other rankings on the console: the users shown are at
    most 10 rows of the average-transaction view in descending order of
    avg_transaction, and the merchants shown are at most 10 rows of the
    failure-rate view in descending order of failure_rate; both are shown
    after the top merchants. *)
Theorem shown_rankings (df : Table) :
  shown (fst (display df))
  = [ VTop (top_merchants df); VAvg (shown_users df); VFailure (shown_failures df) ]
  /\ List.length (shown_users df) = Nat.min 10 (List.length (avg_txn df))
  /\ incl (shown_users df) (avg_txn df)
  /\ StronglySorted avg_ge (shown_users df)
  /\ List.length (shown_failures df) = Nat.min 10 (List.length (failure_rate df))
  /\ incl (shown_failures df) (failure_rate df)
  /\ StronglySorted rate_ge (shown_failures df).
Proof.
  split; [reflexivity|]. unfold shown_users, shown_failures.
  split; [|split; [|split; [|split; [|split]]]].
  - unfold limit. now rewrite length_firstn, orderBy_desc_length.
  - intros row Hrow. now apply limit_In, orderBy_desc_In in Hrow.
  - apply limit_sorted.
    apply (sorted_weaken
             (fun a b => oQ_ltb (avg_transaction a) (avg_transaction b) = false)).
    + intros a b. apply oQ_ltb_false.
    + apply orderBy_desc_ranked.
      * intros a b c Hab Hbc. apply oQ_ltb_false. apply oQ_ltb_false in Hab, Hbc.
        unfold avg_ge in *.
        destruct (avg_transaction a), (avg_transaction b), (avg_transaction c);
          try tauto. now apply (Qle_trans _ q0).
      * intros a b Hab. apply oQ_ltb_false. unfold avg_ge. unfold oQ_ltb in Hab.
        destruct (avg_transaction a), (avg_transaction b); try discriminate; try tauto.
        apply Qlt_le_weak. now apply Q_ltb_true.
  - unfold limit. now rewrite length_firstn, orderBy_desc_length.
  - intros row Hrow. now apply limit_In, orderBy_desc_In in Hrow.
  - apply limit_sorted.
    apply (sorted_weaken
             (fun a b => Q_ltb (fr_failure_rate a) (fr_failure_rate b) = false)).
    + intros a b. apply Q_ltb_false.
    + apply orderBy_desc_ranked.
      * intros a b c Hab Hbc. apply Q_ltb_false. apply Q_ltb_false in Hab, Hbc.
        now apply (Qle_trans _ (fr_failure_rate b)).
      * intros a b Hab. apply Q_ltb_false. apply Qlt_le_weak. now apply Q_ltb_true.
Qed.

(** ** The summary statistics *)








(** * Further properties of the generator *)

Section ConsoleFacts.
Import TransactionGenerator GeneratorReference.
Variables strip lower : string -> string.
Variable int : string -> option Z.

Lemma accepted_later (k : key) (console : list key) (n : Z) (rest : list key) :
  k <> CtrlC ->
  accepted strip lower int console n rest ->
  accepted strip lower int (k :: console) n rest.
Proof.
  intros Hk [before [s [Hb [He [Hi Hshape]]]]].
  exists (k :: before), s. split; [|split; [exact He|split; [exact Hi|]]].
  - intros [E|Hin]; [now apply Hk | now apply Hb].
  - destruct Hshape as [[Hn ->]|[Hn [c [-> Hc]]]].
    + left. split; [exact Hn | reflexivity].
    + right. split; [exact Hn|]. exists c. split; [reflexivity | exact Hc].
Qed.

(** Every way [validate_input] can end, by induction on the number of
    console entries still to be read. *)
Lemma validate_input_ends (bound : nat) :
  forall console, List.length console <= bound ->
    match snd (validate_input strip lower int console) with
    | Return n rest => accepted strip lower int console n rest
    | Exit code => code = 0%Z /\ In CtrlC console
    | Raise e => e = EOFError /\ ~ In CtrlC console
    end.
Proof.
  induction bound as [|bound IH]; intros console Hlen.
  - destruct console; [|cbn in Hlen; lia]. cbn. split; [reflexivity | tauto].
  - destruct console as [|[s|] rest]; cbn [validate_input].
    + cbn. split; [reflexivity | tauto].
    + assert (Hrest : List.length rest <= bound) by (cbn in Hlen; lia).
      assert (Hskip :
        match snd (validate_input strip lower int rest) with
        | Return n rest0 => accepted strip lower int (Line s :: rest) n rest0
        | Exit code => code = 0%Z /\ In CtrlC (Line s :: rest)
        | Raise e => e = EOFError /\ ~ In CtrlC (Line s :: rest)
        end).
      { specialize (IH rest Hrest).
        destruct (snd (validate_input strip lower int rest)) as [n r|code|e].
        - apply accepted_later; [discriminate | exact IH].
        - destruct IH as [-> Hin]. split; [reflexivity | now right].
        - destruct IH as [-> Hin]. split; [reflexivity|].
          intros [E|H]; [discriminate | now apply Hin]. }
      destruct (is_empty (strip s)) eqn:He; [exact Hskip|].
      destruct (int (strip s)) as [n|] eqn:Hi; [|exact Hskip].
      destruct (n <=? 0)%Z eqn:Hn; [exact Hskip|].
      destruct (n >? 1000000)%Z eqn:Hbig.
      2:{ cbn. exists [], s. split; [tauto|]. split; [exact He|]. split; [exact Hi|].
          left. split; [|reflexivity]. rewrite Z.gtb_ltb in Hbig.
          now apply Z.ltb_ge in Hbig. }
      rewrite Z.gtb_ltb in Hbig. apply Z.ltb_lt in Hbig.
      destruct rest as [|[c|] rest'].
      * cbn. split; [reflexivity|]. intros [E|[]]. discriminate.
      * destruct (negb (String.eqb (lower (strip c)) "y"
                        || String.eqb (lower (strip c)) "yes")) eqn:Hc.
        -- assert (Hrest' : List.length rest' <= bound) by (cbn in Hrest; lia).
           specialize (IH rest' Hrest'). unfold log_then. cbn [snd].
           destruct (snd (validate_input strip lower int rest')) as [n' r|code|e].
           ++ apply accepted_later; [discriminate|].
              apply accepted_later; [discriminate | exact IH].
           ++ destruct IH as [-> Hin]. split; [reflexivity | right; now right].
           ++ destruct IH as [-> Hin]. split; [reflexivity|].
              intros [E|[E|H]]; try discriminate. now apply Hin.
        -- cbn. exists [], s. split; [tauto|]. split; [exact He|]. split; [exact Hi|].
           right. split; [exact Hbig|]. exists c. split; [reflexivity|].
           apply negb_false_iff, orb_true_iff in Hc.
           destruct Hc as [Hc|Hc]; apply String.eqb_eq in Hc; tauto.
      * cbn. split; [reflexivity|]. right. now left.
    + cbn. split; [reflexivity | now left].
Qed.

(** X13. [validate_input] lets no ValueError out and never ends the
    process with a failure status: it exits, with status 0, only when the
    user pressed Ctrl-C, and the only exception it raises is EOFError, when
    the console ends without Ctrl-C before a count was accepted. *)
Theorem validate_input_failures (console : list key) :
  (forall code, snd (validate_input strip lower int console) = Exit code ->
                code = 0%Z /\ In CtrlC console)
  /\ (forall e, snd (validate_input strip lower int console) = Raise e ->
                e = EOFError /\ ~ In CtrlC console).
Proof.
  pose proof (validate_input_ends (List.length console) console (Nat.le_refl _)) as H.
  split.
  - intros code E. now rewrite E in H.
  - intros e E. now rewrite E in H.
Qed.

(** X14. The count [validate_input] returns is one the user entered: some
    line of the console, not preceded by Ctrl-C, reads as that number; the
    entries after it are left unread; and a count above 1,000,000 is
    returned only when the entry following it, stripped and lower-cased, is
    "y" or "yes". *)
Theorem validate_input_accepts (console : list key) (n : Z) (rest : list key) :
  snd (validate_input strip lower int console) = Return n rest ->
  accepted strip lower int console n rest.
Proof.
  intros E.
  pose proof (validate_input_ends (List.length console) console (Nat.le_refl _)) as H.
  now rewrite E in H.
Qed.
End ConsoleFacts.

Section ConsoleExamples.
Import TransactionGenerator GeneratorReference.

Lemma validate_input_failures_witness :
  snd (validate_input unchanged unchanged decimal_int [Line "abc"; Line "-4"])
  = Raise EOFError
  /\ EOFError = EOFError
  /\ ~ In CtrlC [Line "abc"; Line "-4"].
Proof.
  split; [reflexivity|].
  apply (proj2 (validate_input_failures unchanged unchanged decimal_int
                  [Line "abc"; Line "-4"]) EOFError eq_refl).
Defined.

Lemma validate_input_accepts_witness :
  snd (validate_input unchanged unchanged decimal_int
         [Line "2000000"; Line "n"; Line "2000000"; Line "yes"; Line "7"])
  = Return 2000000 [Line "7"]
  /\ accepted unchanged unchanged decimal_int
       [Line "2000000"; Line "n"; Line "2000000"; Line "yes"; Line "7"]
       2000000 [Line "7"].
Proof.
  split; [reflexivity|].
  apply (validate_input_accepts unchanged unchanged decimal_int
           [Line "2000000"; Line "n"; Line "2000000"; Line "yes"; Line "7"]
           2000000 [Line "7"] eq_refl).
Defined.
End ConsoleExamples.

Section BatchFacts.
Import TransactionGenerator GeneratorReference.
Variable rnd : Random.

Lemma generate_transaction_sound (fuel : nat) (g g' : Generator) (t : Transaction) :
  generate_transaction rnd fuel g = Ok (t, g') ->
  ~ In (transaction_id t) (used_transaction_ids g)
  /\ used_transaction_ids g' = transaction_id t :: used_transaction_ids g.
Proof.
  unfold generate_transaction. intros Hrun.
  destruct (generate_unique_transaction_id rnd fuel g) as [[id g1]|] eqn:Hid;
    [|discriminate].
  apply unique_id_sound in Hid. injection Hrun as <- <-. exact Hid.
Qed.

(** What one run of the generation loop adds to the list and to the set of
    used identifiers. *)
Lemma generate_loop_adds (fuel k : nat) :
  forall (acc txs : list Transaction) (g g' : Generator),
    generate_loop rnd fuel k acc g = Ok (txs, g') ->
    exists new,
      txs = acc ++ new
      /\ List.length new = k
      /\ NoDup (map transaction_id new)
      /\ (forall t, In t new -> ~ In (transaction_id t) (used_transaction_ids g))
      /\ (forall x, In x (used_transaction_ids g')
                    <-> In x (map transaction_id new) \/ In x (used_transaction_ids g)).
Proof.
  induction k as [|k IH]; intros acc txs g g' Hrun.
  - cbn in Hrun. injection Hrun as <- <-. exists [].
    rewrite app_nil_r. cbn. repeat split; try tauto. constructor.
  - cbn [generate_loop] in Hrun.
    destruct (generate_transaction rnd fuel g) as [[t g1]|] eqn:Ht; [|discriminate].
    apply generate_transaction_sound in Ht. destruct Ht as [Hfresh Hused].
    apply IH in Hrun. destruct Hrun as [new [-> [Hlen [Hnd [Hout Hiff]]]]].
    exists (t :: new). rewrite <- app_assoc. split; [reflexivity|].
    split; [cbn; now rewrite Hlen|].
    assert (Hnew : ~ In (transaction_id t) (map transaction_id new)).
    { intros Hin. apply in_map_iff in Hin. destruct Hin as [t' [E Ht']].
      apply (Hout t' Ht'). rewrite Hused, E. now left. }
    split; [cbn; now constructor|]. split.
    + intros t' [<-|Ht']; [exact Hfresh|].
      intros Hin. apply (Hout t' Ht'). rewrite Hused. now right.
    + intros x. rewrite Hiff, Hused. cbn. tauto.
Qed.

(** X15. The generator object remembers the identifiers it has issued:
    two successive calls of [generate_transactions] on the same generator
    return records whose transaction_id values are pairwise distinct
    across both batches. *)
Theorem batches_share_no_id (fuel1 fuel2 : nat) (n1 n2 : Z) (g g1 g2 : Generator)
        (batch1 batch2 : list Transaction) :
  generate_transactions rnd fuel1 n1 g = Ok (batch1, g1) ->
  generate_transactions rnd fuel2 n2 g1 = Ok (batch2, g2) ->
  NoDup (map transaction_id (batch1 ++ batch2)).
Proof.
  unfold generate_transactions. intros H1 H2.
  apply generate_loop_adds in H1. destruct H1 as [new1 [-> [_ [Hnd1 [_ Hiff1]]]]].
  apply generate_loop_adds in H2. destruct H2 as [new2 [-> [_ [Hnd2 [Hout2 _]]]]].
  cbn [app]. rewrite map_app. apply NoDup_app; [exact Hnd1 | exact Hnd2|].
  intros x Hx1 Hx2. apply in_map_iff in Hx2. destruct Hx2 as [t [<- Ht]].
  apply (Hout2 t Ht). apply Hiff1. now left.
Qed.

Lemma generate_loop_acc (fuel k : nat) :
  forall (acc : list Transaction) (g : Generator),
    generate_loop rnd fuel k acc g
    = match generate_loop rnd fuel k [] g with
      | Ok (new, g') => Ok (acc ++ new, g')
      | OutOfFuel => OutOfFuel
      end.
Proof.
  induction k as [|k IH]; intros acc g.
  - cbn. now rewrite app_nil_r.
  - cbn [generate_loop].
    destruct (generate_transaction rnd fuel g) as [[t g1]|]; [|reflexivity].
    rewrite (IH (acc ++ [t])), (IH ([] ++ [t])).
    destruct (generate_loop rnd fuel k [] g1) as [[new g']|]; [|reflexivity].
    now rewrite <- app_assoc.
Qed.

Lemma generate_loop_add (fuel k1 k2 : nat) :
  forall (acc : list Transaction) (g : Generator),
    generate_loop rnd fuel (k1 + k2) acc g
    = match generate_loop rnd fuel k1 acc g with
      | Ok (txs, g') => generate_loop rnd fuel k2 txs g'
      | OutOfFuel => OutOfFuel
      end.
Proof.
  induction k1 as [|k1 IH]; intros acc g; [reflexivity|].
  cbn [Nat.add generate_loop].
  destruct (generate_transaction rnd fuel g) as [[t g1]|]; [|reflexivity].
  apply IH.
Qed.

(** X16. Generating in one call or in two gives the same records: when a
    call for n1 records and then a call for n2 records on the resulting
    generator succeed, a single call for n1 + n2 records returns the first
    batch followed by the second and leaves the generator in the same
    state. *)
Theorem generate_transactions_add (fuel : nat) (n1 n2 : Z) (g g1 g2 : Generator)
        (batch1 batch2 : list Transaction) :
  (0 <= n1)%Z -> (0 <= n2)%Z ->
  generate_transactions rnd fuel n1 g = Ok (batch1, g1) ->
  generate_transactions rnd fuel n2 g1 = Ok (batch2, g2) ->
  generate_transactions rnd fuel (n1 + n2) g = Ok (batch1 ++ batch2, g2).
Proof.
  unfold generate_transactions. intros Hn1 Hn2 H1 H2.
  rewrite Z2Nat.inj_add by assumption.
  rewrite generate_loop_add, H1, generate_loop_acc, H2. reflexivity.
Qed.
End BatchFacts.

Section BatchExamples.
Import TransactionGenerator GeneratorReference.

Lemma batches_share_no_id_witness :
  exists b1 g1 b2 g2,
    generate_transactions counting 5 2 init = Ok (b1, g1)
    /\ generate_transactions counting 5 3 g1 = Ok (b2, g2)
    /\ NoDup (map transaction_id (b1 ++ b2)).
Proof.
  eexists _, _, _, _.
  split; [vm_compute; reflexivity|]. split; [vm_compute; reflexivity|].
  eapply (batches_share_no_id counting 5 5 2 3 init); vm_compute; reflexivity.
Defined.

Lemma generate_transactions_add_witness :
  exists b1 g1 b2 g2,
    (0 <= 2)%Z /\ (0 <= 3)%Z
    /\ generate_transactions counting 5 2 init = Ok (b1, g1)
    /\ generate_transactions counting 5 3 g1 = Ok (b2, g2)
    /\ generate_transactions counting 5 (2 + 3) init = Ok (b1 ++ b2, g2).
Proof.
  eexists _, _, _, _.
  split; [lia|]. split; [lia|].
  split; [vm_compute; reflexivity|]. split; [vm_compute; reflexivity|].
  eapply (generate_transactions_add counting 5 2 3 init); try lia; vm_compute; reflexivity.
Defined.
End BatchExamples.

Section FileFacts.
Import TransactionGenerator GeneratorReference.
Variable dirname : string -> string.
Variable fs : FS.

Lemma in_list_head (x : string) (l : list string) : in_list x (x :: l) = true.
Proof. unfold in_list. cbn. now rewrite String.eqb_refl. Qed.

(** The three ways [ensure_directory_exists] can go. *)
Lemma ensure_directory_cases (created : list string) (f : string) :
  ensure_directory_exists dirname fs created f = ([], inl created)
  \/ ensure_directory_exists dirname fs created f
     = ([FsMakedirs (dirname f)], inr (OSError "Failed to create directory"))
  \/ ensure_directory_exists dirname fs created f
     = ([FsMakedirs (dirname f); Out "Created directory"], inl (dirname f :: created)).
Proof.
  unfold ensure_directory_exists.
  destruct (negb (is_empty (dirname f))
            && negb (path_exists fs (dirname f) || in_list (dirname f) created));
    [|now left].
  destruct (makedirs_fails fs (dirname f)); tauto.
Qed.

Lemma ensure_directory_again (created created' : list string) (f f' : string)
      (l : list event) :
  ensure_directory_exists dirname fs created f = (l, inl created') ->
  dirname f' = dirname f ->
  ensure_directory_exists dirname fs created' f' = ([], inl created').
Proof.
  intros Hrun Hdir. unfold ensure_directory_exists in *. rewrite Hdir.
  destruct (negb (is_empty (dirname f))) eqn:He; cbn [andb] in *.
  - destruct (path_exists fs (dirname f)) eqn:Hp; cbn [orb negb] in *.
    + injection Hrun as _ <-. reflexivity.
    + destruct (in_list (dirname f) created) eqn:Hin; cbn [negb] in *.
      * injection Hrun as _ <-. now rewrite Hin.
      * destruct (makedirs_fails fs (dirname f)); [discriminate|].
        injection Hrun as _ <-. now rewrite in_list_head.
  - injection Hrun as _ <-. reflexivity.
Qed.

(** X17. [ensure_directory_exists] creates a directory at most once: after
    a call that succeeded, a call for the same path, or for another file
    of the same directory, calls [os.makedirs] no more and changes
    nothing, also when [os.makedirs] would now fail. *)
Theorem ensure_directory_idempotent (created created' : list string) (f f' : string)
        (l : list event) :
  ensure_directory_exists dirname fs created f = (l, inl created') ->
  dirname f' = dirname f ->
  ensure_directory_exists dirname fs created' f' = ([], inl created')
  /\ List.length (makedirs_calls l) <= 1.
Proof.
  intros Hrun Hdir. split; [now apply (ensure_directory_again created created' f f' l)|].
  destruct (ensure_directory_cases created f) as [E|[E|E]];
    rewrite E in Hrun; injection Hrun as <- _; cbn; lia.
Qed.

Lemma save_to_csv_returns (created created' : list string) (data : list Transaction)
      (f : string) (l : list event) :
  save_to_csv dirname fs created data f = (l, inl created') ->
  data <> []
  /\ write_fails fs f = false
  /\ exists l0,
       ensure_directory_exists dirname fs created f = (l0, inl created')
       /\ l = l0 ++ [FsOpen f; FsWriteCsv f data; Out "Successfully saved CSV"].
Proof.
  unfold save_to_csv.
  destruct (ensure_directory_exists dirname fs created f) as [l0 [c|e]]; [|discriminate].
  destruct (open_fails fs f); [discriminate|].
  destruct data as [|t data]; [discriminate|].
  destruct (write_fails fs f); [discriminate|].
  intros E. injection E as <- <-.
  split; [discriminate|]. split; [reflexivity|]. now exists l0.
Qed.


(** X18. [save_to_csv] refuses an empty data set only after opening the
    file: it never returns normally on empty data, and when the directory
    is there and the file can be opened, the file has been opened for
    writing (and so emptied) when ValueError "No data to save" is raised;
    [save_to_json] on the same input writes the empty list. *)
Theorem save_empty_data (created : list string) (f : string) :
  (forall l created', save_to_csv dirname fs created [] f <> (l, inl created'))
  /\ (forall l0 created',
        ensure_directory_exists dirname fs created f = (l0, inl created') ->
        open_fails fs f = false ->
        save_to_csv dirname fs created [] f
        = (l0 ++ [FsOpen f; Out "Unexpected error while saving CSV"],
           inr (ValueError "No data to save"))
        /\ (write_fails fs f = false ->
            save_to_json dirname fs created [] f
            = (l0 ++ [FsOpen f; FsWriteJson f []; Out "Successfully saved JSON"],
               inl created'))).
Proof.
  split.
  - intros l created' Hrun. apply save_to_csv_returns in Hrun. now destruct Hrun as [H _].
  - intros l0 created' He Ho. unfold save_to_csv, save_to_json. rewrite He, Ho.
    split; [reflexivity|]. intros Hw. now rewrite Hw.
Qed.
End FileFacts.


Section FileExamples.
Import TransactionGenerator GeneratorReference.

Lemma ensure_directory_idempotent_witness :
  ensure_directory_exists output_dir bare [] csv_filename
  = ([FsMakedirs "../sample_output"; Out "Created directory"], inl ["../sample_output"%string])
  /\ output_dir json_filename = output_dir csv_filename
  /\ ensure_directory_exists output_dir bare ["../sample_output"%string] json_filename
     = ([], inl ["../sample_output"%string]).
Proof.
  split; [reflexivity|]. split; [reflexivity|].
  apply (ensure_directory_idempotent output_dir bare [] ["../sample_output"%string]
           csv_filename json_filename
           [FsMakedirs "../sample_output"; Out "Created directory"] eq_refl eq_refl).
Defined.

Lemma save_empty_data_witness :
  ensure_directory_exists unchanged healthy [] csv_filename = ([], inl [])
  /\ open_fails healthy csv_filename = false
  /\ save_to_csv unchanged healthy [] [] csv_filename
     = ([] ++ [FsOpen csv_filename; Out "Unexpected error while saving CSV"],
        inr (ValueError "No data to save")).
Proof.
  split; [reflexivity|]. split; [reflexivity|].
  apply (proj2 (save_empty_data unchanged healthy [] csv_filename) [] [] eq_refl eq_refl).
Defined.
End FileExamples.

Ltac take_log H :=
  match type of H with
  | _ (?l, _) = _ (?log, _) =>
      let Hlog := fresh "Hlog" in
      assert (Hlog : log = l) by congruence; rewrite Hlog
  end.

Section DriverFacts.
Import TransactionGenerator GeneratorReference.
Variables strip lower : string -> string.
Variable int : string -> option Z.
Variable dirname : string -> string.
Variable fs : FS.
Variable rnd : Random.

Lemma no_file_event_in (l : list event) (ev : event) :
  file_events l = [] -> In ev l -> is_file_event ev = false.
Proof.
  intros Hnone Hin. destruct (is_file_event ev) eqn:E; [|reflexivity].
  assert (Hf : In ev (file_events l)) by (apply filter_In; now split).
  rewrite Hnone in Hf. destruct Hf.
Qed.

Lemma makedirs_calls_app (l l' : list event) :
  makedirs_calls (l ++ l') = makedirs_calls l ++ makedirs_calls l'.
Proof. apply filter_app. Qed.

Lemma makedirs_calls_console (l : list event) :
  file_events l = [] -> makedirs_calls l = [].
Proof.
  intros Hnone. apply filter_none. intros ev Hev.
  apply (no_file_event_in l ev Hnone) in Hev. now destruct ev.
Qed.

Lemma ensure_makedirs_once (created : list string) (f : string) :
  List.length (makedirs_calls (fst (ensure_directory_exists dirname fs created f))) <= 1.
Proof.
  destruct (ensure_directory_cases dirname fs created f) as [E|[E|E]]; rewrite E; cbn; lia.
Qed.

Lemma save_to_csv_makedirs (created : list string) (data : list Transaction) (f : string) :
  makedirs_calls (fst (save_to_csv dirname fs created data f))
  = makedirs_calls (fst (ensure_directory_exists dirname fs created f)).
Proof.
  unfold save_to_csv.
  destruct (ensure_directory_exists dirname fs created f) as [l0 [c|e]]; cbn [fst].
  - destruct (open_fails fs f); [|destruct data; [|destruct (write_fails fs f)]];
      cbn [fst]; rewrite makedirs_calls_app; cbn; apply app_nil_r.
  - rewrite makedirs_calls_app. cbn. apply app_nil_r.
Qed.

Lemma save_to_json_makedirs (created : list string) (data : list Transaction) (f : string) :
  makedirs_calls (fst (save_to_json dirname fs created data f))
  = makedirs_calls (fst (ensure_directory_exists dirname fs created f)).
Proof.
  unfold save_to_json.
  destruct (ensure_directory_exists dirname fs created f) as [l0 [c|e]]; cbn [fst].
  - destruct (open_fails fs f); [|destruct (write_fails fs f)];
      cbn [fst]; rewrite makedirs_calls_app; cbn; apply app_nil_r.
  - rewrite makedirs_calls_app. cbn. apply app_nil_r.
Qed.

(** X19. [main] creates the output directory at most once: when the CSV
    and the JSON file lie in the same directory, its log holds at most one
    call of [os.makedirs], whatever fails. *)
Theorem directory_created_once (fuel : nat) (console : list key)
        (log : list event) (code : Z) :
  dirname csv_filename = dirname json_filename ->
  main strip lower int dirname fs rnd fuel console = Ok (log, code) ->
  List.length (makedirs_calls log) <= 1.
Proof.
  intros Hdir Hmain. unfold main in Hmain.
  pose proof (validate_input_no_file_io strip lower int console) as Hnone.
  apply makedirs_calls_console in Hnone.
  destruct (validate_input strip lower int console) as [l0 v]. cbn [fst] in Hnone.
  destruct v as [n rest|code'|e].
  - destruct (generate_transactions rnd fuel n init) as [[txs g]|]; [|discriminate].
    destruct txs as [|t txs].
    + take_log Hmain. rewrite !makedirs_calls_app, Hnone. cbn. lia.
    + pose proof (save_to_csv_makedirs [] (t :: txs) csv_filename) as Hcsv.
      pose proof (ensure_makedirs_once [] csv_filename) as Hle.
      destruct (save_to_csv dirname fs [] (t :: txs) csv_filename) as [l1 [created|e1]] eqn:E1;
        cbn [fst] in Hcsv.
      * pose proof (save_to_json_makedirs created (t :: txs) json_filename) as Hjson.
        apply save_to_csv_returns in E1. destruct E1 as [_ [_ [l00 [Hens _]]]].
        rewrite (ensure_directory_again dirname fs [] created csv_filename
                   json_filename l00 Hens (eq_sym Hdir)) in Hjson.
        destruct (save_to_json dirname fs created (t :: txs) json_filename)
          as [l2 [c2|e2]]; cbn [fst] in Hjson.
        -- take_log Hmain.
           rewrite !makedirs_calls_app, Hnone, Hcsv, Hjson. cbn.
           rewrite !app_nil_r. exact Hle.
        -- unfold failure in Hmain. take_log Hmain.
           rewrite !makedirs_calls_app, Hnone, Hcsv, Hjson. cbn.
           rewrite !app_nil_r. exact Hle.
      * unfold failure in Hmain. take_log Hmain.
        rewrite !makedirs_calls_app, Hnone, Hcsv. cbn. rewrite !app_nil_r. exact Hle.
  - take_log Hmain. rewrite makedirs_calls_app, Hnone. cbn. lia.
  - unfold failure in Hmain. take_log Hmain.
    rewrite !makedirs_calls_app, Hnone. cbn. lia.
Qed.
End DriverFacts.

Section OutcomeFacts.
Import TransactionGenerator GeneratorReference.
Variables strip lower : string -> string.
Variable int : string -> option Z.
Variable dirname : string -> string.
Variable fs : FS.
Variable rnd : Random.



End OutcomeFacts.

Section OutcomeExamples.
Import TransactionGenerator GeneratorReference.

Lemma directory_created_once_witness :
  exists log code,
    output_dir csv_filename = output_dir json_filename
    /\ main unchanged unchanged decimal_int output_dir bare counting 2 [Line "2"]
       = Ok (log, code)
    /\ List.length (makedirs_calls log) <= 1.
Proof.
  eexists _, _. split; [reflexivity|]. split; [vm_compute; reflexivity|].
  eapply (directory_created_once unchanged unchanged decimal_int output_dir
            bare counting 2 [Line "2"]); [reflexivity|].
  vm_compute. reflexivity.
Defined.

End OutcomeExamples.

(** * The constants and helpers of the generator *)

Section PoolFacts.
Import TransactionGenerator GeneratorReference.

(** Zeros in front of a numeral do not change the number it reads as. *)
Lemma read_zeros (k : nat) (s : string) (d : Decimal.uint) :
  DecimalString.NilEmpty.uint_of_string s = Some d ->
  exists d', DecimalString.NilEmpty.uint_of_string (String.append (zeros k) s) = Some d'
             /\ Nat.of_uint d' = Nat.of_uint d.
Proof.
  intros Hs. induction k as [|k [d' [Hd' Hv]]]; [now exists d|].
  exists (Decimal.D0 d'). cbn [zeros String.append DecimalString.NilEmpty.uint_of_string].
  rewrite Hd'. split; [reflexivity|]. rewrite <- Hv. reflexivity.
Qed.

(** Formatting with [0{width}d] loses nothing of the number. *)
Lemma zero_pad_inj (w n m : nat) : zero_pad w n = zero_pad w m -> n = m.
Proof.
  unfold zero_pad, decimal. intros E.
  destruct (read_zeros
              (w - String.length (DecimalString.NilEmpty.string_of_uint (Nat.to_uint n)))
              _ _ (DecimalString.NilEmpty.usu (Nat.to_uint n))) as [dn [Hn Vn]].
  destruct (read_zeros
              (w - String.length (DecimalString.NilEmpty.string_of_uint (Nat.to_uint m)))
              _ _ (DecimalString.NilEmpty.usu (Nat.to_uint m))) as [dm [Hm Vm]].
  rewrite E in Hn. rewrite Hn in Hm. injection Hm as ->.
  rewrite !DecimalNat.Unsigned.of_to in *. congruence.
Qed.

Lemma String_tail_inj (c : ascii) (s s' : string) : String c s = String c s' -> s = s'.
Proof. intros E. now injection E. Qed.

Lemma padded_offset_inj (c : ascii) (w base i j : nat) :
  String c (zero_pad w (base + i)) = String c (zero_pad w (base + j)) -> i = j.
Proof.
  intros E. apply String_tail_inj, zero_pad_inj in E. now apply Nat.add_cancel_l in E.
Qed.

Lemma customer_id_at_inj (i j : nat) : customer_id_at i = customer_id_at j -> i = j.
Proof. unfold customer_id_at. apply padded_offset_inj. Qed.

Lemma nodup_length_le (l : list string) :
  List.length (nodup string_dec l) <= List.length l.
Proof.
  apply NoDup_incl_length; [apply NoDup_nodup|].
  intros x Hx. now apply nodup_In in Hx.
Qed.

(** X21. The customer pool holds 10000 identifiers and no two of them are
    equal; so the number of unique customers in the summary is at most the
    number of records, and at most 10000 when every customer_id comes from
    the pool. *)
Theorem customer_pool_unique :
  List.length CUSTOMER_IDS = CUSTOMER_POOL_SIZE
  /\ NoDup CUSTOMER_IDS
  /\ (forall transactions,
        unique_customers transactions <= List.length transactions
        /\ ((forall t, In t transactions -> In (customer_id t) CUSTOMER_IDS) ->
            unique_customers transactions <= CUSTOMER_POOL_SIZE)).
Proof.
  assert (Hlen : List.length CUSTOMER_IDS = CUSTOMER_POOL_SIZE).
  { unfold CUSTOMER_IDS. now rewrite length_map, length_seq. }
  split; [exact Hlen|]. split.
  - unfold CUSTOMER_IDS. apply Finite.Injective_map_NoDup.
    + intros i j. apply customer_id_at_inj.
    + apply seq_NoDup.
  - intros transactions. unfold unique_customers. split.
    + rewrite <- (length_map customer_id transactions). apply nodup_length_le.
    + intros Hpool. rewrite <- Hlen.
      apply NoDup_incl_length; [apply NoDup_nodup|].
      intros x Hx. apply nodup_In, in_map_iff in Hx. destruct Hx as [t [<- Ht]].
      now apply Hpool.
Qed.
End PoolFacts.

(** * The sample data under the analysis *)

Section SampleFacts.
Import TransactionGenerator GenerateSampleData.

Lemma filter_all {A} (p : A -> bool) (l : list A) :
  (forall x, In x l -> p x = true) -> filter p l = l.
Proof.
  induction l as [|a t IH]; intros H; [reflexivity|]. cbn.
  rewrite (H a) by now left. f_equal. apply IH. intros x Hx. apply H. now right.
Qed.

Lemma merchant_ids_length : List.length merchant_ids = 50.
Proof. reflexivity. Qed.

Lemma loaded_rows (draws : nat -> Draw) (n : Z) (r : Row) :
  In r (loaded (generate_sample_transactions draws n)) ->
  exists d, r = mkRow (Some (String.append "USER_" (zero_pad 4 (r_user d))))
                      (Some (nth (r_merchant d) merchant_ids EmptyString))
                      (Some (r_amount d))
                      (Some (nth (r_status d) statuses EmptyString))
                      (Some (r_date d))
            /\ exists i, d = draws i.
Proof.
  unfold loaded, generate_sample_transactions. cbn [snd]. rewrite map_map.
  intros Hr. apply in_map_iff in Hr. destruct Hr as [i [<- _]].
  exists (draws i). split; [reflexivity | now exists i].
Qed.

(** X22. The file written by [generate_sample_transactions], read back as
    the analysis reads it, has as many rows as records were asked for.  The
    analysis of it raises the empty-dataset error for a count of 0 or less
    and returns normally otherwise; when the merchant draws are indices of
    the 50 merchant ids, the failure-rate view has at most 50 rows, each for
    one of those ids, and their total_txns add up to the number of
    records. *)
Theorem sample_data_analysed (draws : nat -> Draw) (n : Z) (w : World) :
  (forall i, r_merchant (draws i) < 50) ->
  input_exists w = true ->
  read_csv w = loaded (generate_sample_transactions draws n) ->
  List.length (read_csv w) = Z.to_nat n
  /\ ((n <= 0)%Z -> snd (BankingAnalysis.main w) = inr no_data)
  /\ ((1 <= n)%Z -> snd (BankingAnalysis.main w) = inl tt)
  /\ List.length (failure_rate (read_csv w)) <= 50
  /\ (forall row, In row (failure_rate (read_csv w)) ->
        exists m, fr_merchant_id row = Some m /\ In m merchant_ids)
  /\ list_sum (map total_txns (failure_rate (read_csv w))) = Z.to_nat n.
Proof.
  intros Hidx Hex Hdf.
  assert (Hlen : List.length (read_csv w) = Z.to_nat n).
  { rewrite Hdf. unfold loaded, generate_sample_transactions. cbn [snd].
    now rewrite !length_map, length_seq. }
  assert (Hpool : forall m, In m (merchant_order (read_csv w)) -> In m merchant_ids).
  { intros m Hm. apply merchant_order_In in Hm. destruct Hm as [r [Hr E]].
    rewrite Hdf in Hr. apply loaded_rows in Hr. destruct Hr as [d [-> [i ->]]].
    cbn [BankingAnalysis.merchant_id] in E.
    assert (Em : m = nth (r_merchant (draws i)) merchant_ids EmptyString) by congruence.
    rewrite Em. apply nth_In. rewrite merchant_ids_length. apply Hidx. }
  split; [exact Hlen|]. split; [|split; [|split; [|split]]].
  - intros Hn. assert (Hnil : read_csv w = []).
    { apply length_zero_iff_nil. rewrite Hlen. lia. }
    now rewrite (main_empty_table w Hex Hnil).
  - intros Hn. assert (Hne : read_csv w <> []).
    { intros Hnil. rewrite Hnil in Hlen. cbn in Hlen. lia. }
    now rewrite (main_nonempty w Hex Hne).
  - rewrite failure_rate_closed, length_map, <- merchant_ids_length.
    apply NoDup_incl_length; [apply merchant_order_NoDup | exact Hpool].
  - intros row Hrow. apply failure_rate_rows in Hrow. destruct Hrow as [m [Hm ->]].
    exists m. split; [reflexivity | now apply Hpool].
  - rewrite failure_rate_closed, map_map. cbn [failure_row total_txns].
    rewrite merchant_counts_sum, filter_all; [exact Hlen|].
    intros r Hr. rewrite Hdf in Hr. apply loaded_rows in Hr.
    destruct Hr as [d [-> _]]. reflexivity.
Qed.
End SampleFacts.


Section SampleExamples.
Import TransactionGenerator GenerateSampleData.

Lemma sample_data_analysed_witness :
  (forall i, r_merchant (sample_draws i) < 50)
  /\ input_exists sample_world = true
  /\ List.length (read_csv sample_world) = Z.to_nat 3
  /\ snd (BankingAnalysis.main sample_world) = inl tt.
Proof.
  assert (Hidx : forall i, r_merchant (sample_draws i) < 50).
  { intros i. cbn [sample_draws r_merchant]. apply Nat.mod_upper_bound. discriminate. }
  pose proof (sample_data_analysed sample_draws 3 sample_world Hidx eq_refl eq_refl)
    as [Hlen [_ [Hret _]]].
  split; [exact Hidx|]. split; [reflexivity|]. split; [exact Hlen|].
  apply Hret. lia.
Defined.
End SampleExamples.

(** * The size of a file *)

Section SizeFacts.
Import TransactionGenerator.

Lemma size_loop_spec (units : list string) :
  forall x : Q, (0 <= x)%Q ->
    exists k q,
      size_loop units x = Sized q (nth k (units ++ ["TB"%string]) EmptyString)
      /\ k <= List.length units
      /\ (q * inject_Z (1024 ^ Z.of_nat k) == x)%Q
      /\ (k < List.length units -> (q < 1024)%Q)
      /\ (0 < k -> (1 <= q)%Q)
      /\ (0 <= q)%Q.
Proof.
  induction units as [|u rest IH]; intros x Hx.
  - exists 0, x. cbn. split; [reflexivity|]. split; [lia|].
    split; [apply Qmult_1_r|]. split; [lia|]. split; [lia | exact Hx].
  - cbn [size_loop]. destruct (Qle_bool 1024 x) eqn:Hbig.
    + apply Qle_bool_iff in Hbig.
      assert (Hdiv : (1 <= x / 1024)%Q).
      { apply Qle_shift_div_l; [reflexivity|]. now rewrite Qmult_1_l. }
      destruct (IH (x / 1024)%Q) as [k [q [Hrun [Hk [Hval [Hlt [Hge Hq]]]]]]].
      { apply (Qle_trans _ 1); [discriminate | exact Hdiv]. }
      exists (S k), q. split; [exact Hrun|]. split; [cbn; lia|].
      split; [|split; [|split]].
      * rewrite Nat2Z.inj_succ, Z.pow_succ_r by lia. rewrite inject_Z_mult.
        rewrite (Qmult_comm (inject_Z 1024)), Qmult_assoc, Hval.
        rewrite Qmult_comm. apply Qmult_div_r. discriminate.
      * intros Hlen. apply Hlt. cbn in Hlen. lia.
      * intros _. destruct k as [|k].
        -- cbn in Hval. rewrite Qmult_1_r in Hval. now rewrite Hval.
        -- apply Hge. lia.
      * exact Hq.
    + exists 0, x. cbn [nth app]. split; [reflexivity|]. split; [lia|].
      split; [cbn; apply Qmult_1_r|]. split; [|split; [lia | exact Hx]].
      intros _. apply Qnot_le_lt. intros Hle. apply Qle_bool_iff in Hle. congruence.
Qed.

(** X23. [get_file_size] answers "Unknown" exactly when the size cannot be
    read.  Otherwise it picks the unit B, KB, MB, GB or TB so that the
    number shown, times 1024 to the rank of the unit, is the size in bytes;
    the number is below 1024 unless the unit is TB, and at least 1 unless
    the unit is B. *)
Theorem get_file_size_scaled (getsize : string -> option N) (filepath : string) :
  (get_file_size getsize filepath = Unknown <-> getsize filepath = None)
  /\ forall size_bytes, getsize filepath = Some size_bytes ->
       exists k q,
         get_file_size getsize filepath
         = Sized q (nth k ["B"; "KB"; "MB"; "GB"; "TB"]%string EmptyString)
         /\ k <= 4
         /\ (q * inject_Z (1024 ^ Z.of_nat k) == inject_Z (Z.of_N size_bytes))%Q
         /\ (k < 4 -> (q < 1024)%Q)
         /\ (0 < k -> (1 <= q)%Q).
Proof.
  unfold get_file_size.
  assert (Hspec : forall s : N,
             exists k q,
               size_loop ["B"; "KB"; "MB"; "GB"]%string (inject_Z (Z.of_N s))
               = Sized q (nth k ["B"; "KB"; "MB"; "GB"; "TB"]%string EmptyString)
               /\ k <= 4
               /\ (q * inject_Z (1024 ^ Z.of_nat k) == inject_Z (Z.of_N s))%Q
               /\ (k < 4 -> (q < 1024)%Q)
               /\ (0 < k -> (1 <= q)%Q)).
  { intros s.
    destruct (size_loop_spec ["B"; "KB"; "MB"; "GB"]%string (inject_Z (Z.of_N s)))
      as [k [q [Hrun [Hk [Hval [Hlt [Hge _]]]]]]].
    - change 0%Q with (inject_Z 0). rewrite <- Zle_Qle. lia.
    - exists k, q. repeat split; assumption. }
  split.
  - destruct (getsize filepath) as [s|]; [|tauto].
    destruct (Hspec s) as [k [q [Hrun _]]]. rewrite Hrun. split; discriminate.
  - intros s Hs. rewrite Hs. apply Hspec.
Qed.

Lemma get_file_size_scaled_witness :
  one_file "transactions.csv" = Some 5242880%N
  /\ get_file_size one_file "transactions.csv" = Sized (5242880 / 1024 / 1024) "MB"
  /\ exists k q,
       get_file_size one_file "transactions.csv"
       = Sized q (nth k ["B"; "KB"; "MB"; "GB"; "TB"]%string EmptyString)
       /\ k <= 4
       /\ (q * inject_Z (1024 ^ Z.of_nat k) == inject_Z (Z.of_N 5242880))%Q
       /\ (k < 4 -> (q < 1024)%Q)
       /\ (0 < k -> (1 <= q)%Q).
Proof.
  split; [reflexivity|]. split; [reflexivity|].
  apply (proj2 (get_file_size_scaled one_file "transactions.csv") 5242880%N eq_refl).
Defined.
End SizeFacts.

(** * The fields of the generated records *)

Section FieldFacts.
Import TransactionGenerator GeneratorReference.
Variable rnd : Random.

Lemma unique_id_made (fuel : nat) :
  forall (g g' : Generator) (id : UUID),
    generate_unique_transaction_id rnd fuel g = Ok (id, g') -> made g' = made g.
Proof.
  induction fuel as [|fuel IH]; intros g g' id Hrun; [discriminate|].
  cbn [generate_unique_transaction_id] in Hrun.
  destruct (negb (mem (uuid4 rnd (uuid_calls g)) (used_transaction_ids g))).
  - injection Hrun as _ <-. reflexivity.
  - apply IH in Hrun. exact Hrun.
Qed.

Lemma generate_transaction_fields (fuel : nat) (g g' : Generator) (t : Transaction) :
  generate_transaction rnd fuel g = Ok (t, g') ->
  made g' = S (made g)
  /\ currency t = "INR"%string
  /\ customer_id t = d_customer_id (draws rnd (made g))
  /\ amount t = d_amount (draws rnd (made g))
  /\ status t = nth (d_status (draws rnd (made g))) STATUSES EmptyString
  /\ transaction_type t = nth (d_type (draws rnd (made g))) TRANSACTION_TYPES EmptyString
  /\ location t = nth (d_city (draws rnd (made g))) CITIES EmptyString.
Proof.
  unfold generate_transaction. intros Hrun.
  destruct (generate_unique_transaction_id rnd fuel g) as [[id g1]|] eqn:Hid;
    [|discriminate].
  apply unique_id_made in Hid. injection Hrun as <- <-. cbn. now rewrite Hid.
Qed.

Lemma generate_loop_fields (fuel k : nat) :
  forall (acc txs : list Transaction) (g g' : Generator),
    generate_loop rnd fuel k acc g = Ok (txs, g') ->
    made g' = made g + k
    /\ exists new,
         txs = acc ++ new
         /\ forall t, In t new ->
              exists i, made g <= i < made g + k
                        /\ currency t = "INR"%string
                        /\ customer_id t = d_customer_id (draws rnd i)
                        /\ amount t = d_amount (draws rnd i)
                        /\ status t = nth (d_status (draws rnd i)) STATUSES EmptyString
                        /\ transaction_type t
                           = nth (d_type (draws rnd i)) TRANSACTION_TYPES EmptyString
                        /\ location t = nth (d_city (draws rnd i)) CITIES EmptyString.
Proof.
  induction k as [|k IH]; intros acc txs g g' Hrun.
  - cbn in Hrun. injection Hrun as <- <-. split; [lia|]. exists [].
    split; [now rewrite app_nil_r | intros t []].
  - cbn [generate_loop] in Hrun.
    destruct (generate_transaction rnd fuel g) as [[t g1]|] eqn:Ht; [|discriminate].
    apply generate_transaction_fields in Ht. destruct Ht as [Hmade Hfields].
    apply IH in Hrun. destruct Hrun as [Hmade' [new [-> Hnew]]].
    split; [lia|]. exists (t :: new). split; [now rewrite <- app_assoc|].
    intros t' [<-|Ht'].
    + exists (made g). split; [lia | exact Hfields].
    + destruct (Hnew t' Ht') as [i [Hi Hf]]. exists i. split; [lia | exact Hf].
Qed.

(** X24. The retries of the identifier loop do not disturb the other draws:
    a call for n records uses exactly the next n draws, whatever the number
    of UUIDs tried.  Every record has currency "INR", and, when the drawn
    indices are positions of the three lists, its status, transaction type
    and location are entries of STATUSES, TRANSACTION_TYPES and CITIES. *)
Theorem generated_fields (fuel : nat) (n : Z) (g g' : Generator)
        (transactions : list Transaction) :
  (forall i, d_status (draws rnd i) < 3 /\ d_type (draws rnd i) < 6
             /\ d_city (draws rnd i) < 6) ->
  generate_transactions rnd fuel n g = Ok (transactions, g') ->
  made g' = made g + Z.to_nat n
  /\ forall t, In t transactions ->
       currency t = "INR"%string
       /\ In (status t) STATUSES
       /\ In (transaction_type t) TRANSACTION_TYPES
       /\ In (location t) CITIES.
Proof.
  intros Hidx Hrun. unfold generate_transactions in Hrun.
  apply generate_loop_fields in Hrun. destruct Hrun as [Hmade [new [-> Hnew]]].
  split; [exact Hmade|]. cbn [app]. intros t Ht.
  destruct (Hnew t Ht) as [i [_ [Hc [_ [_ [Hs [Hty Hl]]]]]]].
  destruct (Hidx i) as [Hi1 [Hi2 Hi3]].
  split; [exact Hc|].
  rewrite Hs, Hty, Hl. split; [|split]; apply nth_In; cbn; lia.
Qed.
End FieldFacts.

Section FieldExamples.
Import TransactionGenerator GeneratorReference.

Lemma generated_fields_witness :
  (forall i, d_status (draws counting i) < 3 /\ d_type (draws counting i) < 6
             /\ d_city (draws counting i) < 6)
  /\ exists txs g',
       generate_transactions counting 3 3 init = Ok (txs, g')
       /\ made g' = made init + Z.to_nat 3.
Proof.
  assert (Hidx : forall i, d_status (draws counting i) < 3 /\ d_type (draws counting i) < 6
                           /\ d_city (draws counting i) < 6).
  { intros i. cbn. lia. }
  split; [exact Hidx|].
  destruct (generate_transactions counting 3 3 init) as [[txs g']|] eqn:E;
    [|vm_compute in E; discriminate E].
  exists txs, g'. split; [reflexivity|].
  exact (proj1 (generated_fields counting 3 3 init g' txs Hidx E)).
Defined.
End FieldExamples.
